(** * Token Quest: the client-side ledger, swap workflow and wallet session

    A shallow embedding of [frontend/script.js].

    Conventions of the model.
    - A JavaScript number is an exact integer or [NaN] ([jsnum]); fractions
      and the rounding of doubles above 2^53 are outside the model.
    - [AppState] is the global object of the same name; every function of
      the script that touches it is a computation in the monad [JS], which
      threads the state, collects what the function shows to the user
      (notifications, modal, loading indicator, network badge, writes to
      localStorage) as a list of [Effect]s, and may complete abruptly
      ([Thrown]) with the state mutations made so far kept, as a JavaScript
      exception does.
    - An [async] function is cut at its [await]: the part that runs before
      the first suspension and the part that runs when the awaited promise
      settles are two definitions ([executeSwap_begin], [executeSwap_resume]),
      and the event loop ([step], [run]) interleaves them.
    - Results of calls that leave the script (the execute service, the
      clock, the browser's JSON parser) are inputs. *)

From Stdlib Require Import ZArith List String Ascii Bool Lia DecimalString.
From Stdlib Require DecimalPos.
Import ListNotations.
Local Open Scope string_scope.
Local Open Scope list_scope.
Local Open Scope Z_scope.

(** ** JavaScript numbers *)

(** Numbers are [NaN] or integers, and the operations are those of exact
    integers: what JavaScript computes as long as operands and results
    stay below [2^53] in absolute value. *)
Inductive jsnum : Type :=
| NaN
| Num (z : Z).

(** [a + b] *)
Definition js_add (a b : jsnum) : jsnum :=
  match a, b with
  | Num x, Num y => Num (x + y)
  | _, _ => NaN
  end.

(** [Math.floor(a / 100) + 1] *)
Definition level_of (a : jsnum) : jsnum :=
  match a with
  | Num x => Num (x / 100 + 1)
  | NaN => NaN
  end.

(** [a > b]; a comparison with [NaN] is false. *)
Definition js_gt (a b : jsnum) : bool :=
  match a, b with
  | Num x, Num y => y <? x
  | _, _ => false
  end.

(** ** [parseInt(text)] with no radix argument *)

Definition is_space (c : ascii) : bool :=
  let n := nat_of_ascii c in
  ((9 <=? n) && (n <=? 13))%nat || (n =? 32)%nat.

Fixpoint skip_spaces (s : string) : string :=
  match s with
  | String c rest => if is_space c then skip_spaces rest else s
  | EmptyString => s
  end.

(** The value of a character as a digit of the given radix (10 or 16). *)
Definition digit_of (radix : Z) (c : ascii) : option Z :=
  let n := Z.of_nat (nat_of_ascii c) in
  let v :=
    if (48 <=? n) && (n <=? 57) then Some (n - 48)
    else if (97 <=? n) && (n <=? 102) then Some (n - 87)
    else if (65 <=? n) && (n <=? 70) then Some (n - 55)
    else None in
  match v with
  | Some d => if d <? radix then Some d else None
  | None => None
  end.

(** The longest prefix of digits; [acc] is [None] until a digit is read. *)
Fixpoint read_digits (radix : Z) (s : string) (acc : option Z) : option Z :=
  match s with
  | String c rest =>
      match digit_of radix c with
      | Some d =>
          read_digits radix rest
            (Some (match acc with Some a => a * radix + d | None => d end))
      | None => acc
      end
  | EmptyString => acc
  end.

Definition parseInt (text : string) : jsnum :=
  let s := skip_spaces text in
  let '(sign, s) :=
    match s with
    | String "-" rest => (-1, rest)
    | String "+" rest => (1, rest)
    | _ => (1, s)
    end in
  let '(radix, s) :=
    match s with
    | String "0" (String "x" rest) => (16, rest)
    | String "0" (String "X" rest) => (16, rest)
    | _ => (10, s)
    end in
  match read_digits radix s None with
  | Some v => Num (sign * v)
  | None => NaN
  end.

(** ** Data *)

(** An entry of the quest log, as [handleSwapSuccess] builds it. *)
Module QuestEntry.
Record t : Type := mk {
  type : string;
  fromToken : option string;
  toToken : option string;
  amount : string;
  xpEarned : Z;
  timestamp : string;
  txHash : option string
}.
End QuestEntry.

(** The value of [AppState.questLog]: the array the script starts with, or
    whatever else [JSON.parse] returned at load time ([null], a number, a
    string, an object), none of which has [unshift]. *)
Inductive QuestLog : Type :=
| LogArray (entries : list QuestEntry.t)
| LogNotArray.

Record AppState : Type := mkAppState {
  web3 : bool;                 (* [false] is [null] *)
  account : option string;
  isConnected : bool;
  currentLevel : jsnum;
  currentXP : jsnum;
  questLog : QuestLog
}.

(** The object literal the script starts from. *)
Definition initialState : AppState :=
  {| web3 := false; account := None; isConnected := false;
     currentLevel := Num 1; currentXP := Num 0; questLog := LogArray [] |}.

(** The values of the swap form, read from the DOM. *)
Module FormData.
Record t : Type := mk {
  fromToken : string;
  toToken : string;
  amount : string;
  slippage : string
}.
End FormData.

(** The body posted to [/api/execute-swap]; [slippage] is kept as the text
    that [parseFloat] is applied to. *)
Module SwapRequest.
Record t : Type := mk {
  walletAddress : option string;
  tokenIn : string;
  tokenOut : string;
  amountIn : string;
  slippage : string
}.
End SwapRequest.

(** The JSON the execute service answers with. *)
Module ExecResult.
Record t : Type := mk {
  success : bool;
  transaction_hash : option string;
  xp_earned : option Z;
  message : option string;
  error : option string
}.
End ExecResult.

(** How the awaited [fetch(...)] and [response.json()] settle. *)
Inductive FetchReply : Type :=
| NetworkError (message : string)
| Response (result : ExecResult.t).

(** What the script shows or writes. Re-rendering of the XP bar, the quest
    list and the buttons is a projection of [AppState] and is not recorded. *)
Inductive Effect : Type :=
| Notification (message kind : string)       (* showNotification *)
| LevelUp (level : jsnum)                    (* showLevelUpEffect *)
| SuccessModal (message : string) (xpEarned : Z)
| NetworkStatus (isCorrectNetwork : bool)    (* updateNetworkStatus *)
| Loading (visible : bool)                   (* loading shown, form hidden *)
| Saved (xp level : jsnum) (log : QuestLog)  (* saveState *)
| ExecuteSwapCall (body : SwapRequest.t).    (* fetch of /api/execute-swap *)

(** ** The monad of the script's functions *)

Inductive Completion (A : Type) : Type :=
| Normal (a : A)
| Thrown (message : string).
Arguments Normal {A} a.
Arguments Thrown {A} message.

Definition JS (A : Type) : Type :=
  AppState -> Completion A * AppState * list Effect.

Definition ret {A} (a : A) : JS A := fun st => (Normal a, st, []).

Definition bind {A B} (m : JS A) (f : A -> JS B) : JS B :=
  fun st =>
    match m st with
    | (Normal a, st1, out1) =>
        let '(r, st2, out2) := f a st1 in (r, st2, out1 ++ out2)
    | (Thrown msg, st1, out1) => (Thrown msg, st1, out1)
    end.

Definition throw {A} (msg : string) : JS A := fun st => (Thrown msg, st, []).
Definition emit (e : Effect) : JS unit := fun st => (Normal tt, st, [e]).
Definition get : JS AppState := fun st => (Normal st, st, []).
Definition modify (f : AppState -> AppState) : JS unit :=
  fun st => (Normal tt, f st, []).

(** [try { body } catch (error) { handler(error.message) }] *)
Definition try_catch {A} (body : JS A) (handler : string -> JS A) : JS A :=
  fun st =>
    match body st with
    | (Thrown msg, st1, out1) =>
        let '(r, st2, out2) := handler msg st1 in (r, st2, out1 ++ out2)
    | done => done
    end.

(** [try { body } finally { cleanup }] *)
Definition try_finally {A} (body : JS A) (cleanup : JS unit) : JS A :=
  fun st =>
    let '(r, st1, out1) := body st in
    match cleanup st1 with
    | (Normal _, st2, out2) => (r, st2, out1 ++ out2)
    | (Thrown msg, st2, out2) => (Thrown msg, st2, out1 ++ out2)
    end.

Declare Scope js_scope.
Delimit Scope js_scope with js.
Notation "x <- m ;; k" := (bind m (fun x => k))
  (at level 61, m at next level, right associativity) : js_scope.
Notation "m ;; k" := (bind m (fun _ => k))
  (at level 61, right associativity) : js_scope.
Local Open Scope js_scope.

Definition state_of {A} (r : Completion A * AppState * list Effect) : AppState :=
  snd (fst r).
Definition effects_of {A} (r : Completion A * AppState * list Effect)
  : list Effect := snd r.
Definition completion_of {A} (r : Completion A * AppState * list Effect)
  : Completion A := fst (fst r).

Definition set_currentXP (v : jsnum) (st : AppState) : AppState :=
  mkAppState (web3 st) (account st) (isConnected st) (currentLevel st) v
    (questLog st).
Definition set_currentLevel (v : jsnum) (st : AppState) : AppState :=
  mkAppState (web3 st) (account st) (isConnected st) v (currentXP st)
    (questLog st).
Definition set_questLog (v : QuestLog) (st : AppState) : AppState :=
  mkAppState (web3 st) (account st) (isConnected st) (currentLevel st)
    (currentXP st) v.
Definition set_session (w : bool) (a : option string) (c : bool)
    (st : AppState) : AppState :=
  mkAppState w a c (currentLevel st) (currentXP st) (questLog st).

(** JavaScript's [text || fallback] on an optional string: absent and the
    empty string are falsy. *)
Definition or_text (v : option string) (fallback : string) : string :=
  match v with
  | Some "" | None => fallback
  | Some s => s
  end.

(** ** Progression ledger *)

Definition showNotification (message kind : string) : JS unit :=
  emit (Notification message kind).

Definition showLevelUpEffect : JS unit :=
  st <- get ;; emit (LevelUp (currentLevel st)).

(** [Saved] records the three values handed to [localStorage.setItem];
    whether the storage takes them is not recorded (the function catches
    a failing [setItem] and goes on). *)
Definition saveState : JS unit :=
  st <- get ;; emit (Saved (currentXP st) (currentLevel st) (questLog st)).

Definition addXP (amount : Z) : JS unit :=
  st <- get ;;
  let oldLevel := currentLevel st in
  modify (set_currentXP (js_add (currentXP st) (Num amount))) ;;
  st <- get ;;
  let newLevel := level_of (currentXP st) in
  (if js_gt newLevel oldLevel
   then modify (set_currentLevel newLevel) ;; showLevelUpEffect
   else ret tt) ;;
  saveState.

(** ** Persistence: [loadSavedState] *)

(** What the browser's [JSON.parse] makes of a stored text. *)
Inductive Parsed : Type :=
| SyntaxError
| Parses (value : QuestLog).

(** [localStorage] as the script reads it: the three keys, each absent
    ([getItem] gives [null]) or a text; the quest-log text comes with its
    parse. *)
Record LocalStorage : Type := mkLocalStorage {
  tokenQuest_xp : option string;
  tokenQuest_level : option string;
  tokenQuest_questLog : option (string * Parsed)
}.

(** [if (saved) { action(saved) }]: [null] and the empty string are falsy. *)
Definition if_saved (saved : option string) (action : string -> JS unit)
  : JS unit :=
  match saved with
  | Some "" | None => ret tt
  | Some text => action text
  end.

Definition JSON_parse (parse : Parsed) : JS QuestLog :=
  match parse with
  | SyntaxError => throw "Unexpected token in JSON"
  | Parses v => ret v
  end.

(** The [console.log] at the end of the [try] block reads
    [AppState.questLog.length], which throws on [null] inside the same
    [try]; the console is not part of the model, so both ways out of the
    block leave the same state. *)
Definition loadSavedState (localStorage : LocalStorage) : JS unit :=
  try_catch
    (let savedXP := tokenQuest_xp localStorage in
     let savedLevel := tokenQuest_level localStorage in
     let savedQuestLog := tokenQuest_questLog localStorage in
     if_saved savedXP
       (fun text => modify (set_currentXP (parseInt text))) ;;
     if_saved savedLevel
       (fun text => modify (set_currentLevel (parseInt text))) ;;
     match savedQuestLog with
     | Some (text, parse) =>
         if_saved (Some text)
           (fun _ => v <- JSON_parse parse ;; modify (set_questLog v))
     | None => ret tt
     end)
    (fun _ => ret tt).

(** ** Token registry *)

Module CONFIG.
Record Token : Type := mkToken {
  address : string;
  symbol : string;
  name : string;
  decimals : Z
}.

Definition CHAIN_ID : string := "0x61".

Definition TOKENS : list (string * Token) :=
  [ ("WBNB", mkToken "0xae13d989daC2f0dEbFf460aC112a837C89BAa7cd"
               "WBNB" "Wrapped BNB" 18);
    ("BUSD", mkToken "0x78867BbEeF44f2326bF8DDd1941a4439382EF2A7"
               "BUSD" "Binance USD" 18) ].
End CONFIG.

Definition lower_ascii (c : ascii) : ascii :=
  let n := nat_of_ascii c in
  if ((65 <=? n) && (n <=? 90))%nat then ascii_of_nat (n + 32) else c.

(** [text.toLowerCase()] on ASCII text. *)
Fixpoint toLowerCase (text : string) : string :=
  match text with
  | String c rest => String (lower_ascii c) (toLowerCase rest)
  | EmptyString => EmptyString
  end.

Fixpoint find_symbol (entries : list (string * CONFIG.Token))
    (address : string) : option string :=
  match entries with
  | (symbol, token) :: rest =>
      if String.eqb (toLowerCase (CONFIG.address token)) (toLowerCase address)
      then Some symbol
      else find_symbol rest address
  | [] => None
  end.

Definition getTokenSymbolByAddress (address : string) : option string :=
  find_symbol CONFIG.TOKENS address.

(** ** Quest log *)

(** The text of the error is the one of a value that has no [unshift]
    (a string, a number, an object); statements about it leave the text
    open, since [null] gives another. *)
Definition addToQuestLog (entry : QuestEntry.t) : JS unit :=
  st <- get ;;
  match questLog st with
  | LogArray entries =>
      let unshifted := entry :: entries in
      modify (set_questLog
                (LogArray (if (10 <? List.length unshifted)%nat
                           then firstn 10 unshifted
                           else unshifted))) ;;
      saveState
  | LogNotArray => throw "AppState.questLog.unshift is not a function"
  end.

Definition showSuccessModal (message : string) (xpEarned : Z) : JS unit :=
  emit (SuccessModal message xpEarned).

(** [result.xp_earned || 10]: absent and [0] are falsy. *)
Definition xp_or_base (xp_earned : option Z) : Z :=
  match xp_earned with
  | Some v => if v =? 0 then 10 else v
  | None => 10
  end.

(** [now] is what [new Date().toISOString()] returns. The reset of the
    form and the redrawing of the swap button that end the function are
    not recorded: they touch the page only, and come after everything
    that can throw here. *)
Definition handleSwapSuccess (result : ExecResult.t) (formData : FormData.t)
    (now : string) : JS unit :=
  let xpEarned := xp_or_base (ExecResult.xp_earned result) in
  addXP xpEarned ;;
  addToQuestLog
    {| QuestEntry.type := "swap";
       QuestEntry.fromToken :=
         getTokenSymbolByAddress (FormData.fromToken formData);
       QuestEntry.toToken :=
         getTokenSymbolByAddress (FormData.toToken formData);
       QuestEntry.amount := FormData.amount formData;
       QuestEntry.xpEarned := xpEarned;
       QuestEntry.timestamp := now;
       QuestEntry.txHash := ExecResult.transaction_hash result |} ;;
  showSuccessModal (or_text (ExecResult.message result) "Treasure found!")
    xpEarned.

(** ** Swap workflow *)

Definition is_empty (text : string) : bool := String.eqb text "".

Definition executeSwap_catch (message : string) : JS unit :=
  showNotification ("Swap failed: " ++ message)%string "error".

Definition executeSwap_finally : JS unit := emit (Loading false).

Section Swap.

(** [web3.utils.toWei(text, 'ether')] of the web3 library: the amount in
    the smallest unit, or [None] where the library throws. *)
Variable toWei : string -> option string.

(** [AppState.web3.utils.toWei(...)]; [AppState.web3] may be [null]. *)
Definition web3_toWei (text : string) : JS string :=
  st <- get ;;
  if web3 st
  then match toWei text with
       | Some wei => ret wei
       | None => throw "invalid number value"
       end
  else throw "Cannot read properties of null (reading 'utils')".

(** [executeSwap] from its entry to [await fetch(...)]. [Some body]: the
    call was issued and the function is suspended; [None]: the [try]
    block threw before the call, and [catch] and [finally] have run. *)
Definition executeSwap_begin (formData : FormData.t)
  : JS (option SwapRequest.t) :=
  try_catch
    (emit (Loading true) ;;
     amountWei <- web3_toWei (FormData.amount formData) ;;
     st <- get ;;
     let body :=
       {| SwapRequest.walletAddress := account st;
          SwapRequest.tokenIn := FormData.fromToken formData;
          SwapRequest.tokenOut := FormData.toToken formData;
          SwapRequest.amountIn := amountWei;
          SwapRequest.slippage := FormData.slippage formData |} in
     emit (ExecuteSwapCall body) ;;
     ret (Some body))
    (fun message =>
       executeSwap_catch message ;; executeSwap_finally ;; ret None).

(** [executeSwap] from the moment the awaited call settles to its end. *)
Definition executeSwap_resume (formData : FormData.t) (reply : FetchReply)
    (now : string) : JS unit :=
  try_finally
    (try_catch
       match reply with
       | NetworkError message => throw message
       | Response result =>
           if ExecResult.success result
           then handleSwapSuccess result formData now
           else throw (or_text (ExecResult.error result) "Swap failed")
       end
       executeSwap_catch)
    executeSwap_finally.

(** [handleSwapSubmission], with the form values read from the DOM given
    as [formData]. The result is that of [executeSwap_begin] when the
    checks pass, and [None] when one of them returns early. *)
Definition handleSwapSubmission (formData : FormData.t)
  : JS (option SwapRequest.t) :=
  st <- get ;;
  if negb (isConnected st)
  then showNotification "Please connect your wallet first!" "warning" ;;
       ret None
  else if is_empty (FormData.fromToken formData)
          || is_empty (FormData.toToken formData)
          || is_empty (FormData.amount formData)
  then showNotification "Please fill all required fields!" "warning" ;;
       ret None
  else if String.eqb (FormData.fromToken formData)
                     (FormData.toToken formData)
  then showNotification "Please select different tokens!" "warning" ;;
       ret None
  else executeSwap_begin formData.

End Swap.

(** ** Wallet session *)

Definition updateNetworkStatus (isCorrectNetwork : bool) : JS unit :=
  emit (NetworkStatus isCorrectNetwork).

Definition disconnectWallet : JS unit :=
  modify (set_session false None false) ;;
  showNotification "Wallet disconnected" "info".

(** [connectWallet] up to its first [await]; the constructor [new Web3] is
    taken to succeed. What follows the [await] (network verification, the
    backend's wallet check, the notification) only shows things. *)
Definition connectWallet_begin (address : string) : JS unit :=
  modify (set_session true (Some address) true).

Definition handleAccountsChanged (accounts : list string) : JS unit :=
  match accounts with
  | [] => disconnectWallet
  | first :: _ => connectWallet_begin first
  end.

Definition handleChainChanged (chainId : string) : JS unit :=
  if String.eqb chainId CONFIG.CHAIN_ID
  then updateNetworkStatus true
  else updateNetworkStatus false.

(** ** The event loop *)

(** The page between two turns of the event loop: the global state, the
    swaps suspended at their [await] (oldest first), and everything shown
    so far. *)
Record World : Type := mkWorld {
  app : AppState;
  pending : list FormData.t;
  shown : list Effect
}.

Inductive Event : Type :=
| SwapSubmit (formData : FormData.t)
| SwapSettles (k : nat) (reply : FetchReply) (now : string)
| AccountsChanged (accounts : list string)
| ChainChanged (chainId : string).

Fixpoint remove_nth {A} (k : nat) (l : list A) : list A :=
  match k, l with
  | O, _ :: rest => rest
  | S k', x :: rest => x :: remove_nth k' rest
  | _, [] => []
  end.

Section Loop.

Variable toWei : string -> option string.

Definition step (w : World) (e : Event) : World :=
  match e with
  | SwapSubmit formData =>
      let '(r, st, out) := handleSwapSubmission toWei formData (app w) in
      let suspended :=
        match r with
        | Normal (Some _) => [formData]
        | _ => []
        end in
      mkWorld st (pending w ++ suspended) (shown w ++ out)
  | SwapSettles k reply now =>
      match nth_error (pending w) k with
      | Some formData =>
          let '(_, st, out) :=
            executeSwap_resume formData reply now (app w) in
          mkWorld st (remove_nth k (pending w)) (shown w ++ out)
      | None => w
      end
  | AccountsChanged accounts =>
      let '(_, st, out) := handleAccountsChanged accounts (app w) in
      mkWorld st (pending w) (shown w ++ out)
  | ChainChanged chainId =>
      let '(_, st, out) := handleChainChanged chainId (app w) in
      mkWorld st (pending w) (shown w ++ out)
  end.

Definition run (w : World) (events : list Event) : World :=
  fold_left step events w.

End Loop.

(** The page once the [DOMContentLoaded] handler has loaded the saved
    state into the initial [AppState]. *)
Definition startup (localStorage : LocalStorage) : World :=
  let '(_, st, out) := loadSavedState localStorage initialState in
  mkWorld st [] out.

(** ** Decimal conversion used in the examples *)

Fixpoint all_chars (p : ascii -> bool) (s : string) : bool :=
  match s with
  | String c rest => p c && all_chars p rest
  | EmptyString => true
  end.

Definition is_digit (c : ascii) : bool :=
  let n := nat_of_ascii c in ((48 <=? n) && (n <=? 57))%nat.

Fixpoint decimal_value (s : string) (acc : Z) : Z :=
  match s with
  | String c rest =>
      decimal_value rest (acc * 10 + Z.of_nat (nat_of_ascii c) - 48)
  | EmptyString => acc
  end.

(** The text before the first ["."], and the text after it if there is one. *)
Fixpoint split_dot (s : string) : string * option string :=
  match s with
  | String "." rest => ("", Some rest)
  | String c rest => let '(w, f) := split_dot rest in (String c w, f)
  | EmptyString => ("", None)
  end.

Fixpoint pad_right (n : nat) (s : string) : string :=
  match n, s with
  | O, _ => s
  | S n', String c rest => String c (pad_right n' rest)
  | S n', EmptyString => String "0" (pad_right n' EmptyString)
  end.

(** Modelled from the spec: the conversion of a decimal text to the
    smallest unit, which the script takes from the web3 library (not part
    of the repository): multiply by [10^18], integer result, refusing text
    that is not a decimal number or has more than 18 fractional digits. *)
Definition toWei_ether (text : string) : option string :=
  let '(negative, body) :=
    match text with
    | String "-" rest => (true, rest)
    | _ => (false, text)
    end in
  let '(whole, fraction) := split_dot body in
  let fraction := match fraction with Some f => f | None => "" end in
  if is_empty body || String.eqb body "."
     || negb (all_chars is_digit whole) || negb (all_chars is_digit fraction)
     || (18 <? String.length fraction)%nat
  then None
  else
    let wei :=
      decimal_value whole 0 * 10 ^ 18
      + decimal_value (pad_right 18 fraction) 0 in
    Some (DecimalString.NilZero.string_of_int
            (Z.to_int (if negative then - wei else wei))).

(** ** Notions used in the statements *)

(** The ledger invariant [level == Math.floor(xpTotal / 100) + 1]. *)
Definition level_invariant (st : AppState) : Prop :=
  currentLevel st = level_of (currentXP st).

Definition is_level_up (e : Effect) : bool :=
  match e with
  | LevelUp _ => true
  | _ => false
  end.

(** How many level-up signals a run of effects contains. *)
Definition level_ups (out : list Effect) : nat :=
  List.length (filter is_level_up out).

(** The value a numeric field has after loading: [parseInt] of the saved
    text when there is one (and it is not empty), the value it had
    otherwise. *)
Definition loaded_number (saved : option string) (current : jsnum) : jsnum :=
  match saved with
  | Some "" | None => current
  | Some text => parseInt text
  end.

(** The quest log after loading: the parsed value when a non-empty text
    was saved and parses, the value it had otherwise. *)
Definition loaded_log (saved : option (string * Parsed)) (current : QuestLog)
  : QuestLog :=
  match saved with
  | Some ("", _) | None => current
  | Some (_, SyntaxError) => current
  | Some (_, Parses v) => v
  end.

(** Nothing is saved under any of the three keys. *)
Definition emptyStorage : LocalStorage := mkLocalStorage None None None.

(** The entry [handleSwapSuccess] puts in the quest log. *)
Definition swap_entry (result : ExecResult.t) (formData : FormData.t)
    (now : string) : QuestEntry.t :=
  {| QuestEntry.type := "swap";
     QuestEntry.fromToken :=
       getTokenSymbolByAddress (FormData.fromToken formData);
     QuestEntry.toToken := getTokenSymbolByAddress (FormData.toToken formData);
     QuestEntry.amount := FormData.amount formData;
     QuestEntry.xpEarned := xp_or_base (ExecResult.xp_earned result);
     QuestEntry.timestamp := now;
     QuestEntry.txHash := ExecResult.transaction_hash result |}.

(** A swap that settled: the service's answer, the form it was submitted
    with, and the time of settlement. *)
Definition Settled : Type := (ExecResult.t * FormData.t * string)%type.

Definition settled_entry (s : Settled) : QuestEntry.t :=
  let '(result, formData, now) := s in swap_entry result formData now.

Definition succeeded (s : Settled) : Prop :=
  ExecResult.success (fst (fst s)) = true.

(** The state after the given swaps have settled one after the other. *)
Fixpoint settle_all (swaps : list Settled) (st : AppState) : AppState :=
  match swaps with
  | (result, formData, now) :: rest =>
      settle_all rest
        (state_of (executeSwap_resume formData (Response result) now st))
  | [] => st
  end.

(** The reason shown for a reply that is a failure; [None] for a success. *)
Definition failure_reason (reply : FetchReply) : option string :=
  match reply with
  | NetworkError message => Some message
  | Response result =>
      if ExecResult.success result then None
      else Some (or_text (ExecResult.error result) "Swap failed")
  end.

(** What [executeSwap] shows when its [try] block throws: the [catch]
    notification, then the [finally] clause. *)
Definition failed_output (reason : string) : list Effect :=
  [Notification ("Swap failed: " ++ reason)%string "error"; Loading false].

(** Example data: a connected session with an empty ledger, a well-formed
    form, and a successful answer of the service. *)
Definition connectedState : AppState :=
  mkAppState true (Some "0x1111111111111111111111111111111111111111") true
    (Num 1) (Num 0) (LogArray []).

Definition wbnb_to_busd (amount : string) : FormData.t :=
  FormData.mk "0xae13d989daC2f0dEbFf460aC112a837C89BAa7cd"
    "0x78867BbEeF44f2326bF8DDd1941a4439382EF2A7" amount "0.5".

Definition answer (xp_earned : option Z) : ExecResult.t :=
  ExecResult.mk true (Some "0xfeed") xp_earned None None.

(** Eleven successful swaps, told apart by the XP the service grants. *)
Definition elevenSwaps : list Settled :=
  map (fun xp => (answer (Some xp), wbnb_to_busd "1", "t"))
    [1; 2; 3; 4; 5; 6; 7; 8; 9; 10; 11].

(** The form has its three fields filled and two different tokens: what
    [handleSwapSubmission] checks of it. *)
Definition passes_checks (formData : FormData.t) : Prop :=
  FormData.fromToken formData <> ""
  /\ FormData.toToken formData <> ""
  /\ FormData.amount formData <> ""
  /\ FormData.fromToken formData <> FormData.toToken formData.

(** The body [executeSwap] posts for a form, an account and a converted
    amount. *)
Definition swap_body (address : option string) (formData : FormData.t)
    (wei : string) : SwapRequest.t :=
  SwapRequest.mk address (FormData.fromToken formData)
    (FormData.toToken formData) wei (FormData.slippage formData).

(** The quest log is an array of at most 10 entries. *)
Definition bounded_log (st : AppState) : Prop :=
  exists entries,
    questLog st = LogArray entries /\ (List.length entries <= 10)%nat.

Definition is_call (e : Effect) : bool :=
  match e with
  | ExecuteSwapCall _ => true
  | _ => false
  end.

(** How many calls of the execute service a run of effects contains. *)
Definition calls (out : list Effect) : nat :=
  List.length (filter is_call out).

(** A ledger state, the session being irrelevant. *)
Definition ledger (xp level : jsnum) (log : QuestLog) : AppState :=
  mkAppState false None false level xp log.

(** ** Notions used in the further properties *)

(** The progression part of the state: XP total, level and quest log. *)
Definition ledger_of (st : AppState) : jsnum * jsnum * QuestLog :=
  (currentXP st, currentLevel st, questLog st).

(** The session part of the state. *)
Definition session_of (st : AppState) : bool * option string * bool :=
  (web3 st, account st, isConnected st).

(** The three session fields agree: the web3 handle and the account are
    set exactly when [isConnected] is. *)
Definition session_consistent (st : AppState) : Prop :=
  web3 st = isConnected st
  /\ (isConnected st = true <-> account st <> None).

Definition is_modal (e : Effect) : bool :=
  match e with
  | SuccessModal _ _ => true
  | _ => false
  end.

(** An event that is not the settlement of a swap with [success] true. *)
Definition not_a_success (e : Event) : Prop :=
  match e with
  | SwapSettles _ (Response result) _ => ExecResult.success result = false
  | _ => True
  end.

(** ** What the display functions show *)

(** [a - b] *)
Definition js_sub (a b : jsnum) : jsnum :=
  match a, b with
  | Num x, Num y => Num (x - y)
  | _, _ => NaN
  end.

(** [a * b] *)
Definition js_mul (a b : jsnum) : jsnum :=
  match a, b with
  | Num x, Num y => Num (x * y)
  | _, _ => NaN
  end.

(** The texts [updateXPDisplay] writes: the level, the XP within the
    level, and the size of a level. The width of the progress bar, the
    floating-point value [(xpInCurrentLevel / 100) * 100], is left out. *)
Record XPDisplay : Type := mkXPDisplay {
  playerLevel : jsnum;
  shownXP : jsnum;
  nextLevelXP : Z
}.

Definition updateXPDisplay (st : AppState) : XPDisplay :=
  let xpForCurrentLevel := js_mul (js_sub (currentLevel st) (Num 1)) (Num 100) in
  let xpInCurrentLevel := js_sub (currentXP st) xpForCurrentLevel in
  {| playerLevel := currentLevel st;
     shownXP := xpInCurrentLevel;
     nextLevelXP := 100 |}.

(** [text.slice(0, 6)] and [text.slice(-4)] *)
Definition slice_first6 (text : string) : string := substring 0 6 text.
Definition slice_last4 (text : string) : string :=
  substring (String.length text - 4) 4 text.

(** The label [updateWalletUI] puts on the connect button, after the
    wallet icon. *)
Definition updateWalletUI (st : AppState) : string :=
  match isConnected st, account st with
  | true, Some (String c rest as address) =>
      (slice_first6 address ++ "..." ++ slice_last4 address)%string
  | _, _ => "Connect Wallet"
  end.

(** [CONFIG.TOKENS[key]], the key being [null] when no symbol was found. *)
Fixpoint tokens_get (entries : list (string * CONFIG.Token))
    (key : option string) : option CONFIG.Token :=
  match entries, key with
  | (symbol, token) :: rest, Some k =>
      if String.eqb symbol k then Some token else tokens_get rest key
  | _, _ => None
  end.

(** The text [updateTokenSymbols] writes beside the amount field. *)
Definition updateTokenSymbols (fromToken : string) : string :=
  if is_empty fromToken then "TOKEN"
  else match tokens_get CONFIG.TOKENS (getTokenSymbolByAddress fromToken) with
       | Some token => CONFIG.symbol token
       | None => "TOKEN"
       end.

Section SwapButton.

(** [parseFloat(text) <= 0] *)
Variable nonpositive : string -> bool.

(** What [updateSwapButtonState] makes of the swap button: whether it is
    disabled, and its text. *)
Definition updateSwapButtonState (st : AppState) (formData : FormData.t)
  : bool * string :=
  let fromToken := FormData.fromToken formData in
  let toToken := FormData.toToken formData in
  let amount := FormData.amount formData in
  if negb (isConnected st) then (true, "Connect Wallet to Start Quest")
  else if is_empty fromToken || is_empty toToken then (true, "Select Tokens")
  else if String.eqb fromToken toToken then (true, "Select Different Tokens")
  else if is_empty amount || nonpositive amount then (true, "Enter Amount")
  else (false, "Start Treasure Hunt!").

End SwapButton.

(** ** What [saveState] writes *)

(** [n.toString()] for a number of the model: decimal digits, as
    JavaScript prints an integer below [10^21]. *)
Definition toString (n : jsnum) : string :=
  match n with
  | NaN => "NaN"
  | Num z => DecimalString.NilZero.string_of_int (Z.to_int z)
  end.

(** [localStorage] after the three [setItem] calls of [saveState] for the
    given state; [logText] is the text [JSON.stringify] gives for the
    quest log, with what [JSON.parse] makes of it. *)
Definition savedStorage (st : AppState) (logText : string * Parsed)
  : LocalStorage :=
  {| tokenQuest_xp := Some (toString (currentXP st));
     tokenQuest_level := Some (toString (currentLevel st));
     tokenQuest_questLog := Some logText |}.

(** A number that is [NaN] or an integer JavaScript holds exactly. *)
Definition safe_number (n : jsnum) : Prop :=
  match n with
  | NaN => True
  | Num z => Z.abs z < 2 ^ 53
  end.

(** ** Connecting the wallet *)

(** How a request to the wallet settles: refused (the error's [code], if
    it has one) or answered. *)
Inductive WalletReply (A : Type) : Type :=
| Refused (code : option Z)
| Answered (value : A).
Arguments Refused {A} code.
Arguments Answered {A} value.

(** What [window.ethereum.request] answers to each method the script
    calls. *)
Record Wallet : Type := mkWallet {
  eth_requestAccounts : WalletReply (list string);
  eth_accounts : WalletReply (list string);
  eth_chainId : WalletReply string;
  wallet_switchEthereumChain : WalletReply unit;
  wallet_addEthereumChain : WalletReply unit
}.

Definition switchToBSCTestnet (ethereum : Wallet) : JS unit :=
  match wallet_switchEthereumChain ethereum with
  | Answered _ => updateNetworkStatus true
  | Refused code =>
      match code with
      | Some 4902 =>
          match wallet_addEthereumChain ethereum with
          | Answered _ => updateNetworkStatus true
          | Refused _ => updateNetworkStatus false
          end
      | _ => updateNetworkStatus false
      end
  end.

Definition verifyNetwork (ethereum : Wallet) : JS unit :=
  match eth_chainId ethereum with
  | Answered chainId =>
      if negb (String.eqb chainId CONFIG.CHAIN_ID)
      then switchToBSCTestnet ethereum
      else updateNetworkStatus true
  | Refused _ => updateNetworkStatus false
  end.

(** [validateWalletWithBackend] only writes to the console, whatever the
    backend answers and also when the call fails. *)
Definition validateWalletWithBackend (address : string) : JS unit := ret tt.

(** [connectWallet] after its first [await]: the network is verified, the
    backend asked, the notification shown. None of it writes [AppState],
    so the awaits of this part are taken in one go. *)
Definition connectWallet_resume (address : string) (ethereum : Wallet)
  : JS unit :=
  try_catch
    (verifyNetwork ethereum ;;
     validateWalletWithBackend address ;;
     showNotification
       "🎉 Wallet connected! Ready to start your treasure hunt!" "success")
    (fun _ =>
       showNotification "Wallet connection failed. Please try again." "error").

(** [connectWallet] with no other event handled during its awaits. *)
Definition connectWallet (address : string) (ethereum : Wallet) : JS unit :=
  connectWallet_begin address ;; connectWallet_resume address ethereum.

(** [requestWalletConnection] from the answer to [eth_requestAccounts] on,
    for a page that has [window.ethereum]. *)
Definition requestWalletConnection (ethereum : Wallet) : JS unit :=
  match eth_requestAccounts ethereum with
  | Answered (first :: _) => connectWallet first ethereum
  | Answered [] => ret tt
  | Refused _ =>
      showNotification "Failed to connect wallet. Please try again." "error"
  end.

(** [checkWalletConnection] from the answer to [eth_accounts] on; a
    refusal is only written to the console. *)
Definition checkWalletConnection (ethereum : option Wallet) : JS unit :=
  match ethereum with
  | Some wallet =>
      match eth_accounts wallet with
      | Answered (first :: _) => connectWallet first wallet
      | Answered [] => ret tt
      | Refused _ => ret tt
      end
  | None => ret tt
  end.

(** What a click on the connect button leads to: the wallet is
    disconnected, or the alert that asks for MetaMask is shown, or the
    accounts are requested from the wallet ([requestWalletConnection]
    goes on when it answers). *)
Inductive ClickResult : Type :=
| Disconnected
| Alerted (message : string)
| AccountsRequested.

(** [handleWalletConnection] up to the request to the wallet;
    [hasEthereum] tells whether the page has [window.ethereum]. *)
Definition handleWalletConnection (hasEthereum : bool) : JS ClickResult :=
  st <- get ;;
  if isConnected st
  then disconnectWallet ;; ret Disconnected
  else if hasEthereum
       then ret AccountsRequested
       else ret (Alerted
                   "🥺 MetaMask is required to play Token Quest! Please install MetaMask to continue your adventure.").

Definition is_network_status (e : Effect) : bool :=
  match e with
  | NetworkStatus _ => true
  | _ => false
  end.

(** The chain ends up being the required one: the wallet is on it, or
    accepts to switch to it, or does not know it (code 4902) and accepts
    to add it. *)
Definition network_ok (ethereum : Wallet) : bool :=
  match eth_chainId ethereum with
  | Answered chainId =>
      String.eqb chainId CONFIG.CHAIN_ID
      || match wallet_switchEthereumChain ethereum with
         | Answered _ => true
         | Refused (Some 4902) =>
             match wallet_addEthereumChain ethereum with
             | Answered _ => true
             | Refused _ => false
             end
         | Refused _ => false
         end
  | Refused _ => false
  end.

(** ** Quotes *)

(** The body posted to [/api/get-quote]. *)
Module QuoteRequest.
Record t : Type := mk {
  tokenIn : string;
  tokenOut : string;
  amountIn : string
}.
End QuoteRequest.

(** The JSON the quote service answers with; [price_impact] is the text
    the template shows for it. *)
Module QuoteResult.
Record t : Type := mk {
  success : bool;
  amount_out : option string;
  price_impact : string
}.
End QuoteResult.

Inductive QuoteReply : Type :=
| QuoteError (message : string)
| QuoteResponse (result : QuoteResult.t).

(** What the quote functions write on the page or send. *)
Inductive QuoteEffect : Type :=
| ExpectedOutput (text : string)     (* #expectedOutput *)
| PriceImpact (text : string)        (* #priceImpact *)
| QuoteCall (body : QuoteRequest.t). (* fetch of /api/get-quote *)

(** [amount && fromToken && toToken && fromToken !== toToken] *)
Definition quotable (formData : FormData.t) : bool :=
  negb (is_empty (FormData.amount formData))
  && negb (is_empty (FormData.fromToken formData))
  && negb (is_empty (FormData.toToken formData))
  && negb (String.eqb (FormData.fromToken formData)
             (FormData.toToken formData)).

Section Quotes.

Variable toWei : string -> option string.

(** [web3.utils.fromWei(text, 'ether')], [None] where it throws. *)
Variable fromWei : string -> option string.

(** [parseFloat(text).toFixed(6)] *)
Variable toFixed6 : string -> string.

(** [calculateExpectedOutput] from its entry to [await fetch(...)]: what
    it writes, and the call it leaves pending if any. *)
Definition calculateExpectedOutput_begin (st : AppState)
    (formData : FormData.t) : list QuoteEffect * option QuoteRequest.t :=
  let fromToken := FormData.fromToken formData in
  let toToken := FormData.toToken formData in
  let amount := FormData.amount formData in
  if is_empty amount || is_empty fromToken || is_empty toToken
     || String.eqb fromToken toToken
  then ([], None)
  else
    match (if web3 st then toWei amount else None) with
    | Some amountWei =>
        let body := QuoteRequest.mk fromToken toToken amountWei in
        ([QuoteCall body], Some body)
    | None => ([ExpectedOutput "Quote unavailable"], None)
    end.

(** [calculateExpectedOutput] from the moment the call settles: what it
    writes. [st] is the state at that moment, [formData] the form the
    function read at its entry. *)
Definition calculateExpectedOutput_resume (st : AppState)
    (formData : FormData.t) (reply : QuoteReply) : list QuoteEffect :=
  match reply with
  | QuoteError _ => [ExpectedOutput "Quote unavailable"]
  | QuoteResponse result =>
      if QuoteResult.success result
      then
        match (if web3 st
               then match QuoteResult.amount_out result with
                    | Some amount_out => fromWei amount_out
                    | None => None
                    end
               else None) with
        | Some outputAmount =>
            let toTokenSymbol :=
              getTokenSymbolByAddress (FormData.toToken formData) in
            [ExpectedOutput
               (toFixed6 outputAmount ++ " "
                ++ match tokens_get CONFIG.TOKENS toTokenSymbol with
                   | Some token =>
                       if is_empty (CONFIG.symbol token) then "TOKEN"
                       else CONFIG.symbol token
                   | None => "TOKEN"
                   end)%string;
             PriceImpact ("~" ++ QuoteResult.price_impact result ++ "%")%string]
        | None => [ExpectedOutput "Quote unavailable"]
        end
      else [ExpectedOutput "Quote failed"]
  end.

(** [handleAmountChange], the swap button apart. *)
Definition handleAmountChange (st : AppState) (formData : FormData.t)
  : list QuoteEffect * option QuoteRequest.t :=
  if quotable formData
  then calculateExpectedOutput_begin st formData
  else ([ExpectedOutput "-- TOKEN"], None).

(** [handleTokenSelection], the token label and the swap button apart. *)
Definition handleTokenSelection (st : AppState) (formData : FormData.t)
  : list QuoteEffect * option QuoteRequest.t :=
  if quotable formData
  then calculateExpectedOutput_begin st formData
  else ([], None).

End Quotes.

Definition is_output (e : QuoteEffect) : bool :=
  match e with
  | ExpectedOutput _ => true
  | _ => false
  end.

(** Example data: a wallet on another chain that does not know the
    required one and refuses to add it. *)
Definition stubbornWallet : Wallet :=
  {| eth_requestAccounts :=
       Answered ["0x2222222222222222222222222222222222222222"];
     eth_accounts := Answered [];
     eth_chainId := Answered "0x1";
     wallet_switchEthereumChain := Refused (Some 4902);
     wallet_addEthereumChain := Refused (Some 4001) |}.

(** ** Every handler that writes the state *)

(** The events of the page that can write [AppState]: those of [Event],
    a click on the connect button, the wallet's answer to the request for
    accounts that such a click makes, and its answer to the request made
    when the page loads. *)
Inductive PageEvent : Type :=
| Core (e : Event)
| ConnectClick (hasEthereum : bool)
| AccountsAnswered (ethereum : Wallet)
| LoadAnswered (provider : option Wallet).

Section Page.

Variable toWei : string -> option string.

Definition page_step (w : World) (e : PageEvent) : World :=
  match e with
  | Core e => step toWei w e
  | ConnectClick hasEthereum =>
      let '(_, st, out) := handleWalletConnection hasEthereum (app w) in
      mkWorld st (pending w) (shown w ++ out)
  | AccountsAnswered ethereum =>
      let '(_, st, out) := requestWalletConnection ethereum (app w) in
      mkWorld st (pending w) (shown w ++ out)
  | LoadAnswered provider =>
      let '(_, st, out) := checkWalletConnection provider (app w) in
      mkWorld st (pending w) (shown w ++ out)
  end.

Definition page_run (w : World) (events : list PageEvent) : World :=
  fold_left page_step events w.

End Page.

(** A page event that is not the settlement of a swap with [success]
    true. *)
Definition page_not_a_success (e : PageEvent) : Prop :=
  match e with
  | Core e => not_a_success e
  | _ => True
  end.

(** * Progression ledger *)

Section Ledger.

Implicit Types (st : AppState) (amount : Z).

Lemma addXP_run st amount :
  addXP amount st =
  let xp := js_add (currentXP st) (Num amount) in
  let newLevel := level_of xp in
  let st1 := set_currentXP xp st in
  if js_gt newLevel (currentLevel st)
  then (Normal tt, set_currentLevel newLevel st1,
        [LevelUp newLevel; Saved xp newLevel (questLog st)])
  else (Normal tt, st1, [Saved xp (currentLevel st) (questLog st)]).
Proof.
  destruct st as [w a c l x q]; unfold addXP, bind, get, modify; cbn.
  destruct (js_gt _ l); reflexivity.
Qed.

Lemma addXP_currentXP st amount :
  currentXP (state_of (addXP amount st)) = js_add (currentXP st) (Num amount).
Proof.
  rewrite addXP_run; cbv zeta.
  destruct (js_gt _ _); reflexivity.
Qed.

Lemma addXP_currentLevel st amount :
  currentLevel (state_of (addXP amount st)) =
  let newLevel := level_of (js_add (currentXP st) (Num amount)) in
  if js_gt newLevel (currentLevel st) then newLevel else currentLevel st.
Proof.
  rewrite addXP_run; cbv zeta.
  destruct (js_gt _ _); reflexivity.
Qed.

Lemma addXP_questLog st amount :
  questLog (state_of (addXP amount st)) = questLog st.
Proof.
  rewrite addXP_run; cbv zeta.
  destruct (js_gt _ _); reflexivity.
Qed.

Lemma addXP_session st amount :
  let st' := state_of (addXP amount st) in
  web3 st' = web3 st /\ account st' = account st
  /\ isConnected st' = isConnected st.
Proof.
  rewrite addXP_run; cbv zeta.
  destruct (js_gt _ _); repeat split; reflexivity.
Qed.

Lemma addXP_normal st amount :
  completion_of (addXP amount st) = Normal tt.
Proof.
  rewrite addXP_run; cbv zeta.
  destruct (js_gt _ _); reflexivity.
Qed.

(** C1, as stated, fails: a state with [xpTotal = 0] and a stored level
    of 5, which is what startup produces from a saved level ["5"] and no
    saved XP, keeps level 5 after [addXP(10)], while
    [floor(10 / 100) + 1] is 1. *)
Lemma addXP_stale_level_counterexample :
  let st := ledger (Num 0) (Num 5) (LogArray []) in
  app (startup (mkLocalStorage None (Some "5") None)) = st
  /\ currentXP st = Num 0
  /\ ~ level_invariant (state_of (addXP 10 st)).
Proof.
  cbv zeta; repeat split; try reflexivity.
  unfold level_invariant; cbn; discriminate.
Qed.

(** C1, amended: for an XP total and an amount that JavaScript holds
    exactly (below [2^53], the sum included), from every state whose
    stored level does not exceed [floor(xpTotal / 100) + 1], and for
    every non-negative amount, the state after [addXP] satisfies
    [level == floor(xpTotal / 100) + 1]; from every state with such
    numbers, whatever its level and the sign of the amount (an XP total
    that is not a number included), the level after [addXP] is either the
    level before or that derived value; and [loadSavedState] assigns the
    level on its own, from the saved text alone, whatever XP total is
    saved beside it. *)
Theorem addXP_level_invariant st amount :
  let st' := state_of (addXP amount st) in
  (forall x l,
     currentXP st = Num x ->
     currentLevel st = Num l ->
     l <= x / 100 + 1 ->
     0 <= amount ->
     safe_number (Num x) ->
     safe_number (Num amount) ->
     safe_number (Num (x + amount)) ->
     level_invariant st')
  /\ (safe_number (currentXP st) ->
      safe_number (Num amount) ->
      safe_number (currentXP st') ->
      currentLevel st' = currentLevel st
      \/ currentLevel st' = level_of (currentXP st'))
  /\ (forall localStorage start text,
        tokenQuest_level localStorage = Some text ->
        text <> "" ->
        safe_number (parseInt text) ->
        currentLevel (state_of (loadSavedState localStorage start))
        = parseInt text).
Proof.
  cbv zeta; split; [| split].
  - intros x l Hx Hl Hle Ha _ _ _; unfold level_invariant.
    rewrite addXP_currentXP, addXP_currentLevel, Hx, Hl; cbn.
    assert (x / 100 <= (x + amount) / 100)
      by (apply Z.div_le_mono; lia).
    destruct (Z.ltb_spec l ((x + amount) / 100 + 1)); [reflexivity |].
    f_equal; lia.
  - intros _ _ _.
    rewrite addXP_currentXP, addXP_currentLevel; cbv zeta.
    destruct (js_gt _ _); auto.
  - intros [xp lvl log] [w a c l x q] text Hlvl Htext _.
    cbn in Hlvl; subst lvl.
    destruct text as [| c0 text]; [contradiction |].
    unfold loadSavedState, try_catch, bind.
    destruct xp as [[| c1 t1] |], log as [[[| c3 t3] [| v]] |];
      cbn -[parseInt]; reflexivity.
Qed.

(** From [{xpTotal: 95, level: 1}], [addXP(10)] restores the invariant;
    from [{xpTotal: 10, level: 5}], [addXP(-5)] keeps level 5; and a
    saved level [7] beside a saved XP total [0] is loaded as it is. *)
Lemma addXP_level_invariant_witness :
  level_invariant
    (state_of (addXP 10 (ledger (Num 95) (Num 1) (LogArray []))))
  /\ currentLevel
       (state_of (addXP (-5) (ledger (Num 10) (Num 5) (LogArray []))))
     = Num 5
  /\ currentLevel
       (state_of (loadSavedState
                    (mkLocalStorage (Some "0") (Some "7") None)
                    (ledger (Num 0) (Num 1) (LogArray []))))
     = Num 7.
Proof.
  destruct (addXP_level_invariant (ledger (Num 95) (Num 1) (LogArray []))
              10) as (Hinvariant & _ & Hload).
  destruct (addXP_level_invariant (ledger (Num 10) (Num 5) (LogArray []))
              (-5)) as (_ & Hstep & _).
  split; [apply (Hinvariant 95 1); try reflexivity; lia |].
  split.
  - destruct (Hstep eq_refl eq_refl eq_refl) as [Hsame | Hnew];
      [exact Hsame | discriminate Hnew].
  - rewrite (Hload (mkLocalStorage (Some "0") (Some "7") None)
               (ledger (Num 0) (Num 1) (LogArray [])) "7"
               eq_refl ltac:(discriminate) eq_refl).
    reflexivity.
Defined.

(** C9: for an XP total and an amount that JavaScript holds exactly
    (below [2^53], the sum included), from a state that satisfies the
    level invariant, [addXP] signals a level-up (once) exactly when the
    award crosses a 100-point boundary, that is when
    [floor((xp + amount) / 100)] exceeds [floor(xp / 100)], and the level
    is then the recomputed one; it signals none when no boundary is
    crossed. The XP total is the sum. *)
Theorem addXP_level_up_signal st amount x :
  currentXP st = Num x ->
  level_invariant st ->
  safe_number (Num x) ->
  safe_number (Num amount) ->
  safe_number (Num (x + amount)) ->
  let r := addXP amount st in
  currentXP (state_of r) = Num (x + amount)
  /\ (x / 100 < (x + amount) / 100 ->
      level_ups (effects_of r) = 1%nat
      /\ currentLevel (state_of r) = Num ((x + amount) / 100 + 1))
  /\ ((x + amount) / 100 <= x / 100 ->
      level_ups (effects_of r) = 0%nat
      /\ currentLevel (state_of r) = currentLevel st).
Proof.
  intros Hx Hinv _ _ _ r; subst r; unfold level_invariant in Hinv.
  rewrite Hx in Hinv; cbn in Hinv.
  rewrite addXP_run, Hinv, Hx; cbn.
  destruct (Z.ltb_spec (x / 100 + 1) ((x + amount) / 100 + 1));
    cbn; rewrite ?Hinv; repeat split; intros; try reflexivity; lia.
Qed.

(** The example of the specification: from [{xpTotal: 95, level: 1}],
    [addXP(10)] gives [{xpTotal: 105, level: 2}] and one level-up. *)
Lemma addXP_level_up_signal_witness :
  let r := addXP 10 (ledger (Num 95) (Num 1) (LogArray [])) in
  currentXP (state_of r) = Num 105
  /\ level_ups (effects_of r) = 1%nat
  /\ currentLevel (state_of r) = Num 2.
Proof.
  destruct (addXP_level_up_signal (ledger (Num 95) (Num 1) (LogArray []))
              10 95 eq_refl eq_refl eq_refl eq_refl eq_refl)
    as (Hxp & Hup & _).
  split; [exact Hxp |].
  apply Hup; vm_compute; reflexivity.
Defined.

(** C10: from every state, whatever the stored level and whatever the
    amount, [addXP] assigns the level only when the recomputed level is
    strictly greater than the stored one, and leaves it as it is
    otherwise; so the stored level is never greater than the one that
    results. *)
Theorem addXP_never_lowers_level st amount :
  let st' := state_of (addXP amount st) in
  let newLevel := level_of (js_add (currentXP st) (Num amount)) in
  currentLevel st' =
    (if js_gt newLevel (currentLevel st) then newLevel else currentLevel st)
  /\ js_gt (currentLevel st) (currentLevel st') = false.
Proof.
  cbv zeta; rewrite addXP_currentLevel; cbv zeta; split; [reflexivity |].
  destruct (currentLevel st) as [| l],
    (level_of (js_add (currentXP st) (Num amount))) as [| n]; cbn; trivial.
  - apply Z.ltb_irrefl.
  - destruct (Z.ltb_spec l n); cbn; [apply Z.ltb_ge; lia | apply Z.ltb_irrefl].
Qed.

End Ledger.

(** * Persistence *)

Section Persistence.

Implicit Types (st : AppState) (localStorage : LocalStorage).

Lemma if_saved_modify (saved : option string) (f : string -> AppState -> AppState) st :
  if_saved saved (fun text => modify (f text)) st =
  (Normal tt,
   match saved with
   | Some "" | None => st
   | Some text => f text st
   end, []).
Proof.
  destruct saved as [[| c text] |]; reflexivity.
Qed.

(** C3, as stated, fails: a saved XP text that is not a number makes the
    XP total [NaN], not 0; and when only the quest-log text is malformed,
    the saved XP and level are kept, not reset. *)
Lemma loadSavedState_malformed_counterexample :
  currentXP (app (startup (mkLocalStorage (Some "abc") None None))) <> Num 0
  /\ (let st := app (startup (mkLocalStorage (Some "250") (Some "7")
                                (Some ("{", SyntaxError)))) in
      currentXP st = Num 250 /\ currentLevel st = Num 7).
Proof.
  split; [cbn; discriminate | split; reflexivity].
Qed.

(** C3, amended: [loadSavedState] never throws and shows nothing. A key
    that is absent (or holds the empty text) leaves its field as it was,
    so with nothing saved the state stays at the defaults [xpTotal = 0],
    [level = 1]. A saved XP or level text is replaced by [parseInt] of
    it, [NaN] included; a saved quest-log text by what [JSON.parse]
    returns, and when [JSON.parse] throws the log stays as it was while
    XP and level keep the values read before it. The session fields are
    not touched. *)
Theorem loadSavedState_result localStorage st :
  let r := loadSavedState localStorage st in
  completion_of r = Normal tt
  /\ effects_of r = []
  /\ currentXP (state_of r) =
       loaded_number (tokenQuest_xp localStorage) (currentXP st)
  /\ currentLevel (state_of r) =
       loaded_number (tokenQuest_level localStorage) (currentLevel st)
  /\ questLog (state_of r) =
       loaded_log (tokenQuest_questLog localStorage) (questLog st)
  /\ web3 (state_of r) = web3 st
  /\ account (state_of r) = account st
  /\ isConnected (state_of r) = isConnected st
  /\ app (startup emptyStorage) = initialState.
Proof.
  destruct localStorage as [xp lvl log], st as [w a c l x q].
  unfold loadSavedState, try_catch, bind; cbn -[parseInt].
  rewrite !if_saved_modify.
  destruct xp as [[| c1 t1] |], lvl as [[| c2 t2] |],
    log as [[[| c3 t3] [| v]] |]; cbn -[parseInt]; repeat split.
Qed.

End Persistence.

(** * Wallet session *)

Section Wallet.

Variable toWei : string -> option string.
Implicit Types (st : AppState) (w : World).

Lemma handleAccountsChanged_empty st :
  handleAccountsChanged [] st =
  (Normal tt, set_session false None false st,
   [Notification "Wallet disconnected" "info"]).
Proof. reflexivity. Qed.

Lemma handleAccountsChanged_first first rest st :
  handleAccountsChanged (first :: rest) st =
  (Normal tt, set_session true (Some first) true st, []).
Proof. reflexivity. Qed.

Lemma handleChainChanged_run chainId st :
  handleChainChanged chainId st =
  (Normal tt, st, [NetworkStatus (String.eqb chainId CONFIG.CHAIN_ID)]).
Proof.
  unfold handleChainChanged; destruct (String.eqb _ _); reflexivity.
Qed.

(** C8: in every state of the page, an accounts-changed event with an
    empty list leaves the session disconnected with no account; one with
    a non-empty list leaves it connected with the first account of the
    list; a chain-changed event shows the network as compliant exactly
    when the chain is the required one and changes nothing in the state.
    No such event touches the suspended swaps. *)
Theorem wallet_event_transitions w :
  (let w' := step toWei w (AccountsChanged []) in
   isConnected (app w') = false /\ account (app w') = None
   /\ pending w' = pending w)
  /\ (forall first rest,
        let w' := step toWei w (AccountsChanged (first :: rest)) in
        isConnected (app w') = true /\ account (app w') = Some first
        /\ pending w' = pending w)
  /\ (forall chainId,
        let w' := step toWei w (ChainChanged chainId) in
        app w' = app w
        /\ pending w' = pending w
        /\ shown w' =
             shown w
             ++ [NetworkStatus (String.eqb chainId CONFIG.CHAIN_ID)]).
Proof.
  split; [| split]; intros; subst w'; unfold step.
  - rewrite handleAccountsChanged_empty; repeat split.
  - rewrite handleAccountsChanged_first; repeat split.
  - rewrite handleChainChanged_run; repeat split.
Qed.

End Wallet.

(** * Quest log *)

Section QuestLogFacts.

Implicit Types (st : AppState) (entries : list QuestEntry.t).

Lemma keep_ten {A} (l : list A) :
  (if (10 <? List.length l)%nat then firstn 10 l else l) = firstn 10 l.
Proof.
  destruct (Nat.ltb_spec 10 (List.length l)); [reflexivity |].
  symmetry; apply firstn_all2; assumption.
Qed.

Lemma firstn_app_firstn {A} (n : nat) (a b : list A) :
  firstn n (a ++ firstn n b) = firstn n (a ++ b).
Proof.
  rewrite !firstn_app, firstn_firstn.
  f_equal; f_equal; apply Nat.min_l, Nat.le_sub_l.
Qed.

Lemma addToQuestLog_array entry entries st :
  questLog st = LogArray entries ->
  addToQuestLog entry st =
  let log := LogArray (firstn 10 (entry :: entries)) in
  (Normal tt, set_questLog log st,
   [Saved (currentXP st) (currentLevel st) log]).
Proof.
  intros Hlog; unfold addToQuestLog, bind, get, modify, saveState.
  rewrite Hlog; cbn -[firstn Nat.ltb List.length].
  rewrite (keep_ten (entry :: entries)); reflexivity.
Qed.

Lemma addToQuestLog_not_array entry st :
  questLog st = LogNotArray ->
  addToQuestLog entry st =
  (Thrown "AppState.questLog.unshift is not a function", st, []).
Proof.
  intros Hlog; unfold addToQuestLog, bind, get; cbn.
  rewrite Hlog; reflexivity.
Qed.

Lemma handleSwapSuccess_array result formData now entries st :
  questLog st = LogArray entries ->
  let award := xp_or_base (ExecResult.xp_earned result) in
  let r := handleSwapSuccess result formData now st in
  let st1 := state_of (addXP award st) in
  let log := LogArray (firstn 10 (swap_entry result formData now :: entries)) in
  completion_of r = Normal tt
  /\ state_of r = set_questLog log st1
  /\ effects_of r =
       effects_of (addXP award st)
       ++ [Saved (currentXP st1) (currentLevel st1) log;
           SuccessModal (or_text (ExecResult.message result) "Treasure found!")
             award].
Proof.
  intros Hlog award r st1 log; subst r st1.
  unfold handleSwapSuccess, bind.
  fold award; fold (swap_entry result formData now).
  pose proof (addXP_normal st award) as Hn.
  pose proof (addXP_questLog st award) as Hq.
  destruct (addXP award st) as [[c st1] out1]; cbn in Hn, Hq; subst c.
  cbn -[addToQuestLog firstn].
  rewrite (addToQuestLog_array _ entries) by congruence.
  cbn -[firstn]; repeat split.
Qed.

Lemma handleSwapSuccess_not_array result formData now st :
  questLog st = LogNotArray ->
  let award := xp_or_base (ExecResult.xp_earned result) in
  let r := handleSwapSuccess result formData now st in
  completion_of r = Thrown "AppState.questLog.unshift is not a function"
  /\ state_of r = state_of (addXP award st)
  /\ effects_of r = effects_of (addXP award st).
Proof.
  intros Hlog award r; subst r.
  unfold handleSwapSuccess, bind.
  fold award; fold (swap_entry result formData now).
  pose proof (addXP_normal st award) as Hn.
  pose proof (addXP_questLog st award) as Hq.
  destruct (addXP award st) as [[c st1] out1]; cbn in Hn, Hq; subst c.
  cbn -[addToQuestLog].
  rewrite addToQuestLog_not_array by congruence.
  cbn; rewrite app_nil_r; repeat split.
Qed.

End QuestLogFacts.

(** * Swap workflow *)

Section SwapFacts.

Variable toWei : string -> option string.
Implicit Types (st : AppState) (w : World) (formData : FormData.t).

Lemma executeSwap_resume_failure formData reply now st reason :
  failure_reason reply = Some reason ->
  executeSwap_resume formData reply now st =
  (Normal tt, st, failed_output reason).
Proof.
  destruct reply as [message | result]; cbn.
  - intros [= <-]; reflexivity.
  - unfold executeSwap_resume.
    destruct (ExecResult.success result); [discriminate |].
    intros [= <-]; reflexivity.
Qed.

Lemma executeSwap_resume_success formData result now entries st :
  ExecResult.success result = true ->
  questLog st = LogArray entries ->
  let award := xp_or_base (ExecResult.xp_earned result) in
  let r := executeSwap_resume formData (Response result) now st in
  let st1 := state_of (addXP award st) in
  let log := LogArray (firstn 10 (swap_entry result formData now :: entries)) in
  completion_of r = Normal tt
  /\ state_of r = set_questLog log st1
  /\ effects_of r =
       (effects_of (addXP award st)
        ++ [Saved (currentXP st1) (currentLevel st1) log;
            SuccessModal
              (or_text (ExecResult.message result) "Treasure found!") award])
       ++ [Loading false].
Proof.
  intros Hok Hlog award r st1 log; subst r.
  destruct (handleSwapSuccess_array result formData now entries st Hlog)
    as (Hc & Hs & He).
  unfold executeSwap_resume, try_finally, try_catch; rewrite Hok.
  destruct (handleSwapSuccess result formData now st) as [[c st2] out2].
  cbn in Hc, Hs, He; subst c st2 out2.
  repeat split.
Qed.

Lemma executeSwap_resume_success_not_array formData result now st :
  ExecResult.success result = true ->
  questLog st = LogNotArray ->
  let award := xp_or_base (ExecResult.xp_earned result) in
  let r := executeSwap_resume formData (Response result) now st in
  completion_of r = Normal tt
  /\ state_of r = state_of (addXP award st)
  /\ effects_of r =
       (effects_of (addXP award st)
        ++ [Notification
              "Swap failed: AppState.questLog.unshift is not a function"
              "error"])
       ++ [Loading false].
Proof.
  intros Hok Hlog award r; subst r.
  destruct (handleSwapSuccess_not_array result formData now st Hlog)
    as (Hc & Hs & He).
  unfold executeSwap_resume, try_finally, try_catch; rewrite Hok.
  destruct (handleSwapSuccess result formData now st) as [[c st2] out2].
  cbn in Hc, Hs, He; subst c st2 out2.
  repeat split.
Qed.

Lemma executeSwap_begin_run formData st :
  executeSwap_begin toWei formData st =
  match (if web3 st then toWei (FormData.amount formData) else None) with
  | Some wei =>
      let body :=
        SwapRequest.mk (account st) (FormData.fromToken formData)
          (FormData.toToken formData) wei (FormData.slippage formData) in
      (Normal (Some body), st, [Loading true; ExecuteSwapCall body])
  | None =>
      (Normal None, st,
       Loading true
       :: failed_output
            (if web3 st then "invalid number value"
             else "Cannot read properties of null (reading 'utils')"))
  end.
Proof.
  unfold executeSwap_begin, try_catch, bind, web3_toWei, get, emit; cbn.
  destruct (web3 st); [destruct (toWei _) |]; reflexivity.
Qed.

Lemma executeSwap_begin_state formData st :
  state_of (executeSwap_begin toWei formData st) = st.
Proof.
  rewrite executeSwap_begin_run.
  destruct (if web3 st then _ else _); reflexivity.
Qed.

Lemma handleSwapSubmission_state formData st :
  state_of (handleSwapSubmission toWei formData st) = st.
Proof.
  pose proof (executeSwap_begin_state formData st) as Hb.
  unfold handleSwapSubmission, bind, get; cbn.
  destruct (isConnected st); cbn; [| reflexivity].
  destruct (_ || _); cbn; [reflexivity |].
  destruct (String.eqb _ _); cbn; [reflexivity |].
  destruct (executeSwap_begin toWei formData st) as [[c st1] out1].
  exact Hb.
Qed.

Lemma step_submit_app w formData :
  app (step toWei w (SwapSubmit formData)) = app w.
Proof.
  pose proof (handleSwapSubmission_state formData (app w)) as Hs.
  unfold step.
  destruct (handleSwapSubmission toWei formData (app w)) as [[c st1] out1].
  exact Hs.
Qed.

End SwapFacts.

Section SwapClaims.

Variable toWei : string -> option string.
Implicit Types (st : AppState) (w : World) (formData : FormData.t).

(** C4: when the awaited call fails, or the service answers with
    [success] false, [executeSwap] leaves the whole state, and so the XP
    total, the level and the quest log, as it was, and shows the failure
    with the reason: the error's message for a failed call, the
    service's [error] text when it gives one, ["Swap failed"] otherwise
    (an empty [error] text counts as none). The state changes only when
    the service answers with [success] true. The same holds for the page
    when a suspended swap settles. *)
Theorem failed_swap_mutates_nothing formData reply now st :
  let r := executeSwap_resume formData reply now st in
  (forall message, reply = NetworkError message ->
     r = (Normal tt, st, failed_output message))
  /\ (forall result, reply = Response result ->
        ExecResult.success result = false ->
        r = (Normal tt, st,
             failed_output
               match ExecResult.error result with
               | Some "" | None => "Swap failed"
               | Some reason => reason
               end))
  /\ (state_of r <> st ->
      exists result,
        reply = Response result /\ ExecResult.success result = true)
  /\ (forall w k reason,
        failure_reason reply = Some reason ->
        nth_error (pending w) k = Some formData ->
        app (step toWei w (SwapSettles k reply now)) = app w).
Proof.
  intros r; subst r; repeat split.
  - intros message ->; reflexivity.
  - intros result -> Hfail.
    apply executeSwap_resume_failure; cbn; rewrite Hfail; reflexivity.
  - intros Hchanged.
    destruct (failure_reason reply) as [reason |] eqn:Hreason.
    + rewrite (executeSwap_resume_failure _ _ _ _ _ Hreason) in Hchanged.
      now contradiction Hchanged.
    + destruct reply as [message | result]; [discriminate |].
      exists result; split; [reflexivity |].
      cbn in Hreason; destruct (ExecResult.success result);
        [reflexivity | discriminate].
  - intros w k reason Hreason Hk; unfold step; rewrite Hk.
    rewrite (executeSwap_resume_failure _ _ _ _ _ Hreason); reflexivity.
Qed.

(** C7, as stated, fails: when the service answers with [xp_earned: 0],
    the XP awarded and recorded is 10, not 0. *)
Lemma zero_xp_earned_counterexample :
  let result := answer (Some 0) in
  let st := ledger (Num 0) (Num 1) (LogArray []) in
  let r := executeSwap_resume (wbnb_to_busd "1") (Response result) "t" st in
  ExecResult.xp_earned result = Some 0
  /\ currentXP (state_of r) <> js_add (currentXP st) (Num 0)
  /\ currentXP (state_of r) = Num 10
  /\ questLog (state_of r) =
       LogArray [QuestEntry.mk "swap" (Some "WBNB") (Some "BUSD") "1" 10 "t"
                   (Some "0xfeed")].
Proof.
  cbv zeta; repeat split; cbn; discriminate.
Qed.

(** C7, amended: for every answer of the service with [success] true,
    the XP added to the total, recorded in the new first entry of the
    quest log and shown in the success modal is the service's
    [xp_earned] when the answer has one that is not 0, and the base
    value 10 when the answer has none or has 0. *)
Theorem swap_success_award formData result now entries st :
  ExecResult.success result = true ->
  questLog st = LogArray entries ->
  let r := executeSwap_resume formData (Response result) now st in
  exists award entry,
    currentXP (state_of r) = js_add (currentXP st) (Num award)
    /\ questLog (state_of r) = LogArray (firstn 10 (entry :: entries))
    /\ QuestEntry.xpEarned entry = award
    /\ In (SuccessModal
             (or_text (ExecResult.message result) "Treasure found!") award)
          (effects_of r)
    /\ (forall v, ExecResult.xp_earned result = Some v -> v <> 0 ->
          award = v)
    /\ (ExecResult.xp_earned result = None
        \/ ExecResult.xp_earned result = Some 0 -> award = 10).
Proof.
  intros Hok Hlog r; subst r.
  destruct (executeSwap_resume_success formData result now entries st
              Hok Hlog) as (_ & Hs & He).
  exists (xp_or_base (ExecResult.xp_earned result)),
    (swap_entry result formData now).
  repeat split.
  - rewrite Hs; unfold set_questLog; cbn [currentXP].
    apply addXP_currentXP.
  - rewrite Hs; reflexivity.
  - rewrite He.
    apply in_or_app; left; apply in_or_app; right; right; left; reflexivity.
  - intros v -> Hv; cbn.
    destruct (Z.eqb_spec v 0); [contradiction | reflexivity].
  - intros [-> | ->]; reflexivity.
Qed.

(** An answer with [xp_earned: 25] awards and records 25. *)
Lemma swap_success_award_witness :
  exists award entry,
    currentXP (state_of (executeSwap_resume (wbnb_to_busd "1")
                           (Response (answer (Some 25))) "t"
                           connectedState))
    = Num award
    /\ QuestEntry.xpEarned entry = award
    /\ award = 25.
Proof.
  destruct (swap_success_award (wbnb_to_busd "1") (answer (Some 25)) "t" []
              connectedState eq_refl eq_refl)
    as (award & entry & Hxp & _ & Hentry & _ & Hsome & _).
  exists award, entry.
  assert (award = 25) as Haward
    by (apply Hsome; [reflexivity | discriminate]).
  repeat split; [| exact Hentry | exact Haward].
  rewrite Hxp, Haward; reflexivity.
Defined.

End SwapClaims.

(** A refusal by the service with the reason [slippage] leaves the ledger
    [{xpTotal: 95, level: 1}] as it is and shows that reason. *)
Lemma failed_swap_mutates_nothing_witness :
  let failure := ExecResult.mk false None None None (Some "slippage") in
  let st := ledger (Num 95) (Num 1) (LogArray []) in
  executeSwap_resume (wbnb_to_busd "1") (Response failure) "t" st =
  (Normal tt, st, failed_output "slippage").
Proof.
  cbv zeta.
  destruct (failed_swap_mutates_nothing toWei_ether (wbnb_to_busd "1")
              (Response (ExecResult.mk false None None None (Some "slippage")))
              "t" (ledger (Num 95) (Num 1) (LogArray [])))
    as (_ & Hfailure & _).
  apply (Hfailure _ eq_refl eq_refl).
Defined.

Section SubmissionClaims.

Variable toWei : string -> option string.
Implicit Types (st : AppState) (w : World) (formData : FormData.t).

Lemma is_empty_spec (text : string) : is_empty text = true <-> text = "".
Proof. unfold is_empty; apply String.eqb_eq. Qed.

Lemma handleSwapSubmission_passes formData st :
  isConnected st = true ->
  FormData.fromToken formData <> "" ->
  FormData.toToken formData <> "" ->
  FormData.amount formData <> "" ->
  FormData.fromToken formData <> FormData.toToken formData ->
  handleSwapSubmission toWei formData st = executeSwap_begin toWei formData st.
Proof.
  intros Hc Hf Ht Ha Hd.
  unfold handleSwapSubmission, bind, get; cbn; rewrite Hc; cbn.
  apply (proj2 (String.eqb_neq _ _)) in Hf, Ht, Ha, Hd.
  unfold is_empty; rewrite Hf, Ht, Ha, Hd; cbn.
  destruct (executeSwap_begin toWei formData st) as [[c st1] out1].
  reflexivity.
Qed.

(** C5, as stated, fails: with a connected wallet, a submission whose
    amount is ["0"], and one whose source token is not in the registry,
    both reach the execute service. *)
Lemma unchecked_submission_counterexample :
  (let r := handleSwapSubmission toWei_ether (wbnb_to_busd "0")
              connectedState in
   calls (effects_of r) = 1%nat
   /\ exists body, completion_of r = Normal (Some body)
                   /\ SwapRequest.amountIn body = "0")
  /\ (let unknown := "0x00000000000000000000000000000000000000aa" in
      let formData :=
        FormData.mk unknown "0x78867BbEeF44f2326bF8DDd1941a4439382EF2A7"
          "5" "0.5" in
      let r := handleSwapSubmission toWei_ether formData connectedState in
      getTokenSymbolByAddress unknown = None
      /\ calls (effects_of r) = 1%nat).
Proof.
  cbv zeta; repeat split.
  eexists; split; reflexivity.
Qed.

(** C5, amended: [handleSwapSubmission] makes three checks, in this
    order, before anything else: the wallet is connected; the source
    token, the target token and the amount are all non-empty; the two
    tokens differ. A submission that fails one of them is rejected with
    that check's own warning, the state unchanged and the execute
    service not called; and whenever the service is called, all three
    have passed. *)
Theorem submission_checks formData st :
  let r := handleSwapSubmission toWei formData st in
  let rejected reason :=
    r = (Normal None, st, [Notification reason "warning"]) in
  (isConnected st = false ->
   rejected "Please connect your wallet first!")
  /\ (isConnected st = true ->
      FormData.fromToken formData = ""
      \/ FormData.toToken formData = ""
      \/ FormData.amount formData = "" ->
      rejected "Please fill all required fields!")
  /\ (isConnected st = true ->
      FormData.fromToken formData <> "" ->
      FormData.toToken formData <> "" ->
      FormData.amount formData <> "" ->
      FormData.fromToken formData = FormData.toToken formData ->
      rejected "Please select different tokens!")
  /\ (calls (effects_of r) <> 0%nat ->
      isConnected st = true
      /\ FormData.fromToken formData <> ""
      /\ FormData.toToken formData <> ""
      /\ FormData.amount formData <> ""
      /\ FormData.fromToken formData <> FormData.toToken formData).
Proof.
  intros r rejected; subst r rejected; cbv beta.
  assert (Hdis : isConnected st = false ->
                 handleSwapSubmission toWei formData st =
                 (Normal None, st,
                  [Notification "Please connect your wallet first!"
                     "warning"])).
  { intros Hc; unfold handleSwapSubmission, bind, get; cbn.
    rewrite Hc; reflexivity. }
  assert (Hfill : isConnected st = true ->
                  is_empty (FormData.fromToken formData)
                  || is_empty (FormData.toToken formData)
                  || is_empty (FormData.amount formData) = true ->
                  handleSwapSubmission toWei formData st =
                  (Normal None, st,
                   [Notification "Please fill all required fields!"
                      "warning"])).
  { intros Hc He; unfold handleSwapSubmission, bind, get; cbn.
    rewrite Hc, He; reflexivity. }
  assert (Hsame : isConnected st = true ->
                  is_empty (FormData.fromToken formData)
                  || is_empty (FormData.toToken formData)
                  || is_empty (FormData.amount formData) = false ->
                  FormData.fromToken formData = FormData.toToken formData ->
                  handleSwapSubmission toWei formData st =
                  (Normal None, st,
                   [Notification "Please select different tokens!"
                      "warning"])).
  { intros Hc He Heq; unfold handleSwapSubmission, bind, get; cbn.
    rewrite Hc, He; cbn.
    apply String.eqb_eq in Heq; rewrite Heq; reflexivity. }
  split; [exact Hdis | split; [| split]].
  - intros Hc Hempty; apply Hfill; [exact Hc |].
    rewrite !orb_true_iff, !is_empty_spec; tauto.
  - intros Hc Hf Ht Ha Heq; apply Hsame; [exact Hc | | exact Heq].
    rewrite !orb_false_iff; repeat split;
      apply not_true_is_false; rewrite is_empty_spec; assumption.
  - intros Hcalls.
    destruct (isConnected st) eqn:Hc;
      [| rewrite Hdis in Hcalls by reflexivity; now contradiction Hcalls].
    destruct (is_empty (FormData.fromToken formData)
              || is_empty (FormData.toToken formData)
              || is_empty (FormData.amount formData)) eqn:He;
      [rewrite Hfill in Hcalls by reflexivity; now contradiction Hcalls |].
    rewrite !orb_false_iff in He; destruct He as ((Hf & Ht) & Ha).
    apply not_true_iff_false in Hf, Ht, Ha.
    rewrite is_empty_spec in Hf, Ht, Ha.
    repeat split; try assumption.
    intros Heq; rewrite Hsame in Hcalls; try reflexivity; try assumption.
    now contradiction Hcalls.
Qed.

End SubmissionClaims.

(** The example of the specification: equal tokens with amount ["5"] are
    rejected with the same-token reason, and nothing is called. *)
Lemma submission_checks_witness :
  let token := "0xae13d989daC2f0dEbFf460aC112a837C89BAa7cd" in
  let formData := FormData.mk token token "5" "0.5" in
  let r := handleSwapSubmission toWei_ether formData connectedState in
  r = (Normal None, connectedState,
       [Notification "Please select different tokens!" "warning"])
  /\ calls (effects_of r) = 0%nat.
Proof.
  cbv zeta.
  destruct (submission_checks toWei_ether
              (FormData.mk "0xae13d989daC2f0dEbFf460aC112a837C89BAa7cd"
                 "0xae13d989daC2f0dEbFf460aC112a837C89BAa7cd" "5" "0.5")
              connectedState) as (_ & _ & Hsame & _).
  rewrite Hsame; [split; reflexivity | reflexivity | | | | reflexivity];
    discriminate.
Defined.

(** * Overlapping submissions and the bounded quest log *)

Section EventLoop.

Variable toWei : string -> option string.
Implicit Types (st : AppState) (w : World) (formData : FormData.t).

Lemma step_settle w k formData reply now :
  nth_error (pending w) k = Some formData ->
  let r := executeSwap_resume formData reply now (app w) in
  step toWei w (SwapSettles k reply now) =
  mkWorld (state_of r) (remove_nth k (pending w)) (shown w ++ effects_of r).
Proof.
  intros Hk r; subst r; unfold step; rewrite Hk.
  destruct (executeSwap_resume formData reply now (app w)) as [[c st1] out1].
  reflexivity.
Qed.

Lemma settle_log formData reply now st entries :
  questLog st = LogArray entries ->
  questLog (state_of (executeSwap_resume formData reply now st)) =
  match reply with
  | Response result =>
      if ExecResult.success result
      then LogArray (firstn 10 (swap_entry result formData now :: entries))
      else LogArray entries
  | NetworkError _ => LogArray entries
  end.
Proof.
  intros Hlog.
  destruct (failure_reason reply) as [reason |] eqn:Hreason.
  - rewrite (executeSwap_resume_failure _ _ _ _ _ Hreason).
    destruct reply as [message | result]; [exact Hlog |].
    cbn in Hreason; destruct (ExecResult.success result);
      [discriminate | exact Hlog].
  - destruct reply as [message | result]; [discriminate |].
    cbn in Hreason.
    destruct (ExecResult.success result) eqn:Hok; [| discriminate].
    destruct (executeSwap_resume_success formData result now entries st
                Hok Hlog) as (_ & Hs & _).
    rewrite Hs; reflexivity.
Qed.

Lemma step_bounded_log w e :
  bounded_log (app w) -> bounded_log (app (step toWei w e)).
Proof.
  intros (entries & Hlog & Hlen).
  destruct e as [formData | k reply now | accounts | chainId].
  - rewrite step_submit_app; exists entries; auto.
  - destruct (nth_error (pending w) k) as [formData |] eqn:Hk.
    + rewrite (step_settle _ _ _ _ _ Hk); unfold bounded_log; cbn [app].
      rewrite (settle_log _ _ _ _ _ Hlog).
      destruct reply as [message | result];
        [| destruct (ExecResult.success result)];
        eexists; split; try reflexivity; try assumption.
      apply firstn_le_length.
    + unfold step; rewrite Hk; exists entries; auto.
  - unfold step; destruct accounts as [| first rest];
      [rewrite handleAccountsChanged_empty
      | rewrite handleAccountsChanged_first];
      exists entries; auto.
  - unfold step; rewrite handleChainChanged_run; exists entries; auto.
Qed.

Lemma run_bounded_log events w :
  bounded_log (app w) -> bounded_log (app (run toWei w events)).
Proof.
  revert w; induction events as [| e events IH]; intros w Hw; [exact Hw |].
  apply IH, step_bounded_log, Hw.
Qed.

Lemma settle_all_log swaps :
  Forall succeeded swaps ->
  forall st entries,
    questLog st = LogArray entries ->
    (List.length entries <= 10)%nat ->
    questLog (settle_all swaps st) =
    LogArray (firstn 10 (rev (map settled_entry swaps) ++ entries)).
Proof.
  induction 1 as [| [[result formData] now] swaps Hok _ IH];
    intros st entries Hlog Hlen.
  - cbn [settle_all map rev List.app].
    rewrite firstn_all2 by assumption; exact Hlog.
  - cbn [settle_all map rev settled_entry].
    unfold succeeded in Hok; cbn in Hok.
    pose proof (settle_log formData (Response result) now st entries Hlog)
      as Hstep.
    cbv beta iota in Hstep; rewrite Hok in Hstep.
    rewrite (IH _ _ Hstep) by apply firstn_le_length.
    rewrite firstn_app_firstn, <- app_assoc; reflexivity.
Qed.

End EventLoop.

Section EventLoopClaims.

Variable toWei : string -> option string.
Implicit Types (st : AppState) (w : World) (formData : FormData.t).

(** C2, as stated, fails: a second submission made while the first is
    suspended at its call is not rejected; it issues a second call, and
    when both settle with success the XP is awarded twice and the quest
    log has two entries. *)
Lemma overlapping_submissions_counterexample :
  let formData := wbnb_to_busd "1" in
  let w1 := step toWei_ether (mkWorld connectedState [] [])
              (SwapSubmit formData) in
  let w2 := step toWei_ether w1 (SwapSubmit formData) in
  let w4 := run toWei_ether w2
              [SwapSettles 0 (Response (answer (Some 10))) "t1";
               SwapSettles 0 (Response (answer (Some 10))) "t2"] in
  pending w1 = [formData]
  /\ pending w2 = [formData; formData]
  /\ calls (shown w2) = 2%nat
  /\ filter (fun e => match e with Notification _ _ => true | _ => false end)
       (shown w2) = []
  /\ currentXP (app w4) = Num 20
  /\ exists first second, questLog (app w4) = LogArray [second; first].
Proof.
  cbv zeta; repeat split.
  eexists; eexists; reflexivity.
Qed.

Lemma nth_error_after {A} (l : list A) (x : A) (rest : list A) :
  nth_error (l ++ x :: rest) (List.length l) = Some x.
Proof. induction l as [| y l IH]; [reflexivity | exact IH]. Qed.

Lemma remove_nth_after {A} (l : list A) (x : A) (rest : list A) :
  remove_nth (List.length l) (l ++ x :: rest) = l ++ rest.
Proof.
  induction l as [| y l IH]; [reflexivity |].
  cbn; rewrite IH; reflexivity.
Qed.

Lemma step_submit_passes w formData wei :
  isConnected (app w) = true ->
  web3 (app w) = true ->
  passes_checks formData ->
  toWei (FormData.amount formData) = Some wei ->
  step toWei w (SwapSubmit formData) =
  mkWorld (app w) (pending w ++ [formData])
    (shown w
     ++ [Loading true;
         ExecuteSwapCall (swap_body (account (app w)) formData wei)]).
Proof.
  intros Hc Hweb3 (Hf & Ht & Ha & Hd) Hwei; unfold step.
  rewrite (handleSwapSubmission_passes toWei formData (app w) Hc Hf Ht Ha Hd).
  rewrite executeSwap_begin_run, Hweb3, Hwei; reflexivity.
Qed.

(** C2, amended: the script has no guard on swaps in flight. With the
    wallet connected, a submission that passes the three checks and
    whose amount converts issues its own execute call whatever swaps are
    already suspended at theirs: a second such submission made while the
    first is suspended is not rejected, shows no notification, and joins
    the suspended swaps with a call of its own. When the two then settle
    with success, each awards its XP and adds its entry: two awards and
    two entries for the pair. *)
Theorem submission_ignores_pending w f1 f2 wei1 wei2 r1 r2 t1 t2 entries :
  isConnected (app w) = true ->
  web3 (app w) = true ->
  passes_checks f1 ->
  passes_checks f2 ->
  toWei (FormData.amount f1) = Some wei1 ->
  toWei (FormData.amount f2) = Some wei2 ->
  ExecResult.success r1 = true ->
  ExecResult.success r2 = true ->
  questLog (app w) = LogArray entries ->
  let n := List.length (pending w) in
  let w1 := step toWei w (SwapSubmit f1) in
  let w2 := step toWei w1 (SwapSubmit f2) in
  let w4 := run toWei w2 [SwapSettles n (Response r1) t1;
                          SwapSettles n (Response r2) t2] in
  pending w1 = pending w ++ [f1]
  /\ pending w2 = pending w ++ [f1; f2]
  /\ shown w2 =
       shown w
       ++ [Loading true;
           ExecuteSwapCall (swap_body (account (app w)) f1 wei1);
           Loading true;
           ExecuteSwapCall (swap_body (account (app w)) f2 wei2)]
  /\ app w2 = app w
  /\ currentXP (app w4) =
       js_add (js_add (currentXP (app w))
                 (Num (xp_or_base (ExecResult.xp_earned r1))))
         (Num (xp_or_base (ExecResult.xp_earned r2)))
  /\ questLog (app w4) =
       LogArray (firstn 10 (swap_entry r2 f2 t2
                            :: swap_entry r1 f1 t1 :: entries))
  /\ pending w4 = pending w.
Proof.
  intros Hc Hweb3 Hf1 Hf2 Hwei1 Hwei2 Hok1 Hok2 Hlog n w1 w2 w4.
  assert (Hw1 : w1 = mkWorld (app w) (pending w ++ [f1])
                       (shown w
                        ++ [Loading true;
                            ExecuteSwapCall
                              (swap_body (account (app w)) f1 wei1)]))
    by (apply step_submit_passes; assumption).
  assert (Hw2 : w2 = mkWorld (app w) (pending w ++ [f1; f2])
                       (shown w
                        ++ [Loading true;
                            ExecuteSwapCall
                              (swap_body (account (app w)) f1 wei1);
                            Loading true;
                            ExecuteSwapCall
                              (swap_body (account (app w)) f2 wei2)])).
  { subst w2; rewrite Hw1.
    rewrite (step_submit_passes _ f2 wei2) by assumption.
    cbn [app pending shown]; rewrite <- !app_assoc; reflexivity. }
  split; [rewrite Hw1; reflexivity |].
  split; [rewrite Hw2; reflexivity |].
  split; [rewrite Hw2; reflexivity |].
  split; [rewrite Hw2; reflexivity |].
  subst w4; rewrite Hw2; unfold run; cbn [fold_left].
  set (w2' := mkWorld (app w) (pending w ++ [f1; f2]) _).
  rewrite (step_settle toWei w2' n f1) by apply nth_error_after.
  subst w2' n; cbn [app pending shown]; rewrite remove_nth_after.
  destruct (executeSwap_resume_success f1 r1 t1 entries (app w) Hok1 Hlog)
    as (_ & Hs1 & _).
  set (w3 := mkWorld _ (pending w ++ [f2]) _).
  assert (Hlog3 : questLog (app w3) =
                  LogArray (firstn 10 (swap_entry r1 f1 t1 :: entries)))
    by (subst w3; cbn [app]; rewrite Hs1; reflexivity).
  rewrite (step_settle toWei w3 (List.length (pending w)) f2)
    by apply nth_error_after.
  destruct (executeSwap_resume_success f2 r2 t2 _ (app w3) Hok2 Hlog3)
    as (_ & Hs2 & _).
  assert (Hp3 : pending w3 = pending w ++ [f2]) by reflexivity.
  cbn [app pending]; rewrite Hs2, Hp3, remove_nth_after, app_nil_r.
  repeat split.
  - unfold set_questLog; cbn [currentXP].
    rewrite addXP_currentXP.
    subst w3; cbn [app]; rewrite Hs1.
    unfold set_questLog; cbn [currentXP].
    rewrite addXP_currentXP; reflexivity.
  - unfold set_questLog; cbn [questLog].
    f_equal.
    apply (firstn_app_firstn 10 [swap_entry r2 f2 t2]).
Qed.

(** C6: from a quest log that is an array, a successful swap puts its
    entry first and keeps the 9 newest of the entries before it; after one
    or more successful swaps the log is the first 10 of the new entries,
    newest first, followed by the old ones, so it has at most 10 entries;
    and after 11 of them it is exactly the entries of the last 10, newest
    first, the first swap's entry being gone. A log of at most 10 entries
    stays one whatever events the page handles. *)
Theorem questLog_bounded_newest_first w events swaps entries :
  questLog (app w) = LogArray entries ->
  Forall succeeded swaps ->
  (forall s, succeeded s ->
     questLog (settle_all [s] (app w)) =
     LogArray (settled_entry s :: firstn 9 entries))
  /\ (swaps <> [] \/ (List.length entries <= 10)%nat ->
      questLog (settle_all swaps (app w)) =
        LogArray (firstn 10 (rev (map settled_entry swaps) ++ entries))
      /\ bounded_log (settle_all swaps (app w)))
  /\ (List.length swaps = 11%nat ->
      questLog (settle_all swaps (app w)) =
      LogArray (rev (tl (map settled_entry swaps))))
  /\ ((List.length entries <= 10)%nat ->
      bounded_log (app (run toWei w events))).
Proof.
  intros Hlog Hok.
  assert (Hone : forall s, succeeded s ->
            questLog (settle_all [s] (app w)) =
            LogArray (firstn 10 (settled_entry s :: entries))).
  { intros [[result formData] now] Hs; unfold succeeded in Hs; cbn in Hs.
    cbn [settle_all settled_entry].
    rewrite (settle_log _ _ _ _ _ Hlog), Hs; reflexivity. }
  assert (Hall : swaps <> [] \/ (List.length entries <= 10)%nat ->
            questLog (settle_all swaps (app w)) =
            LogArray (firstn 10 (rev (map settled_entry swaps) ++ entries))).
  { intros [Hne | Hlen]; [| apply settle_all_log; assumption].
    destruct swaps as [| s rest]; [contradiction |].
    inversion Hok as [| ? ? Hs Hrest]; subst.
    specialize (Hone s Hs).
    destruct s as [[result formData] now].
    cbn [settle_all map rev] in Hone |- *.
    rewrite (settle_all_log rest Hrest _ _ Hone) by apply firstn_le_length.
    rewrite firstn_app_firstn, <- app_assoc; reflexivity. }
  split; [exact Hone | split; [| split]].
  - intros Hcase; split; [apply Hall, Hcase |].
    eexists; split; [apply Hall, Hcase | apply firstn_le_length].
  - intros Hn; rewrite Hall by (left; now destruct swaps); f_equal.
    destruct swaps as [| s rest]; [discriminate |].
    injection Hn as Hrest.
    cbn [map rev tl].
    rewrite <- app_assoc, firstn_app.
    rewrite length_rev, length_map, Hrest, Nat.sub_diag, firstn_O.
    rewrite app_nil_r; apply firstn_all2.
    rewrite length_rev, length_map, Hrest; apply Nat.le_refl.
  - intros Hlen; apply run_bounded_log; exists entries; auto.
Qed.

End EventLoopClaims.

(** With one swap already suspended, two more submissions both issue
    their calls; when they settle with success, granting 10 and the base
    10, the XP total is 20, the log has two entries and the first swap is
    still suspended. *)
Lemma submission_ignores_pending_witness :
  let w := mkWorld connectedState [wbnb_to_busd "7"] [] in
  let w2 := step toWei_ether (step toWei_ether w (SwapSubmit (wbnb_to_busd "1")))
              (SwapSubmit (wbnb_to_busd "2")) in
  let w4 := run toWei_ether w2
              [SwapSettles 1 (Response (answer (Some 10))) "t1";
               SwapSettles 1 (Response (answer None)) "t2"] in
  pending w2 = [wbnb_to_busd "7"; wbnb_to_busd "1"; wbnb_to_busd "2"]
  /\ currentXP (app w4) = Num 20
  /\ pending w4 = [wbnb_to_busd "7"].
Proof.
  cbv zeta.
  destruct (submission_ignores_pending toWei_ether
              (mkWorld connectedState [wbnb_to_busd "7"] [])
              (wbnb_to_busd "1") (wbnb_to_busd "2")
              "1000000000000000000" "2000000000000000000"
              (answer (Some 10)) (answer None) "t1" "t2" [])
    as (_ & Hpending & _ & _ & Hxp & _ & Hleft);
    [reflexivity | reflexivity
     | repeat split; discriminate | repeat split; discriminate
     | reflexivity | reflexivity | reflexivity | reflexivity | reflexivity
     | ].
  split; [exact Hpending |].
  split; [etransitivity; [exact Hxp | reflexivity] | exact Hleft].
Defined.

(** The example of the specification: after 11 successful swaps from the
    empty log, the log holds the entries of swaps 11 down to 2, and the
    entry of the first swap is not in it. *)
Lemma questLog_bounded_newest_first_witness :
  exists entries,
    questLog (settle_all elevenSwaps initialState) = LogArray entries
    /\ map QuestEntry.xpEarned entries = [11; 10; 9; 8; 7; 6; 5; 4; 3; 2]
    /\ ~ In (settled_entry (answer (Some 1), wbnb_to_busd "1", "t")) entries.
Proof.
  assert (Hok : Forall succeeded elevenSwaps)
    by (repeat constructor).
  destruct (questLog_bounded_newest_first toWei_ether
              (mkWorld initialState [] []) [] elevenSwaps []
              eq_refl Hok) as (_ & _ & Heleven & _).
  exists (rev (tl (map settled_entry elevenSwaps))).
  split; [apply Heleven; reflexivity |].
  split; [vm_compute; reflexivity |].
  vm_compute; intros H.
  repeat (destruct H as [H | H]; [discriminate H |]); exact H.
Defined.

(** * Further properties of the swap workflow *)

Section SettlementFacts.

Variable toWei : string -> option string.
Implicit Types (st : AppState) (w : World) (formData : FormData.t).

Lemma addXP_no_modal st amount :
  filter is_modal (effects_of (addXP amount st)) = [].
Proof.
  rewrite addXP_run; cbv zeta.
  destruct (js_gt _ _); reflexivity.
Qed.

(** The three ways a settlement can go. *)
Lemma executeSwap_resume_cases (reply : FetchReply) st :
  (exists reason, failure_reason reply = Some reason)
  \/ (exists result entries,
        reply = Response result /\ ExecResult.success result = true
        /\ questLog st = LogArray entries)
  \/ (exists result,
        reply = Response result /\ ExecResult.success result = true
        /\ questLog st = LogNotArray).
Proof.
  destruct reply as [message | result]; [left; eexists; reflexivity |].
  cbn; destruct (ExecResult.success result) eqn:Hok;
    [| left; eexists; reflexivity].
  right; destruct (questLog st) as [entries |] eqn:Hlog.
  - left; exists result, entries; auto.
  - right; exists result; auto.
Qed.

(** X1: a settlement never throws, whatever the reply and whatever the
    state, and the last thing it shows is the loading indicator being
    hidden; the same holds for a submission whose [try] block fails before
    the call. *)
Theorem executeSwap_always_ends_loading formData reply now st :
  (let r := executeSwap_resume formData reply now st in
   completion_of r = Normal tt
   /\ exists out, effects_of r = out ++ [Loading false])
  /\ (let r := executeSwap_begin toWei formData st in
      (completion_of r = Normal None ->
       exists out, effects_of r = out ++ [Loading false])
      /\ exists body, completion_of r = Normal body).
Proof.
  split.
  - cbv zeta.
    destruct (executeSwap_resume_cases reply st)
      as [(reason & Hr) | [(result & entries & -> & Hok & Hlog)
                          | (result & -> & Hok & Hlog)]].
    + rewrite (executeSwap_resume_failure _ _ _ _ _ Hr); split; [reflexivity |].
      eexists [_]; reflexivity.
    + destruct (executeSwap_resume_success formData result now entries st
                  Hok Hlog) as (Hc & _ & He).
      split; [exact Hc | eexists; exact He].
    + destruct (executeSwap_resume_success_not_array formData result now st
                  Hok Hlog) as (Hc & _ & He).
      split; [exact Hc | eexists; exact He].
  - cbv zeta; rewrite executeSwap_begin_run.
    destruct (if web3 st then _ else _) as [wei |]; cbn; split;
      try discriminate; try (eexists; reflexivity).
    intros _; eexists [_; _]; reflexivity.
Qed.

(** X3: when the quest log is not an array (which is what loading
    leaves for a saved text that parses to something else, an empty
    string for one), a swap that the service reports as successful still
    adds its XP, adds no entry, shows no success modal and is reported
    as a failed swap. *)
Theorem success_with_broken_log formData result now st :
  ExecResult.success result = true ->
  questLog st = LogNotArray ->
  let r := executeSwap_resume formData (Response result) now st in
  currentXP (state_of r) =
    js_add (currentXP st) (Num (xp_or_base (ExecResult.xp_earned result)))
  /\ questLog (state_of r) = LogNotArray
  /\ filter is_modal (effects_of r) = []
  /\ exists reason,
       In (Notification ("Swap failed: " ++ reason)%string "error")
          (effects_of r).
Proof.
  intros Hok Hlog r; subst r.
  destruct (executeSwap_resume_success_not_array formData result now st
              Hok Hlog) as (_ & Hs & He).
  rewrite Hs, He, addXP_currentXP, addXP_questLog.
  repeat split; [exact Hlog | |].
  - rewrite !filter_app, addXP_no_modal; reflexivity.
  - eexists.
    apply in_or_app; left; apply in_or_app; right; left; reflexivity.
Qed.

End SettlementFacts.

(** A saved quest-log text made of two double quotes parses to the empty
    string, so the log is not an array after startup; the next successful
    swap then adds 10 XP and no entry. *)
Lemma success_with_broken_log_witness :
  let quote := String (ascii_of_nat 34) EmptyString in
  let st := app (startup (mkLocalStorage None None
                            (Some ((quote ++ quote)%string,
                                   Parses LogNotArray)))) in
  let r := executeSwap_resume (wbnb_to_busd "1") (Response (answer None))
             "t" st in
  currentXP (state_of r) = Num 10 /\ questLog (state_of r) = LogNotArray.
Proof.
  cbv zeta.
  destruct (success_with_broken_log (wbnb_to_busd "1") (answer None) "t"
              (app (startup
                      (mkLocalStorage None None
                         (Some ((String (ascii_of_nat 34) EmptyString
                                 ++ String (ascii_of_nat 34) EmptyString)%string,
                                Parses LogNotArray)))))
              eq_refl eq_refl) as (Hxp & Hlog & _).
  split; [rewrite Hxp; reflexivity | exact Hlog].
Defined.

(** * The ledger and the session across events *)

Section AcrossEvents.

Variable toWei : string -> option string.
Implicit Types (st : AppState) (w : World) (formData : FormData.t).

Lemma addXP_set_session amount web3' account' connected' st :
  addXP amount (set_session web3' account' connected' st) =
  let '(r, st1, out) := addXP amount st in
  (r, set_session web3' account' connected' st1, out).
Proof.
  rewrite !addXP_run; destruct st as [w0 a0 c0 l x q]; cbn.
  destruct (js_gt _ l); reflexivity.
Qed.

Lemma executeSwap_resume_set_session formData reply now web3' account'
    connected' st :
  executeSwap_resume formData reply now
    (set_session web3' account' connected' st) =
  let '(r, st1, out) := executeSwap_resume formData reply now st in
  (r, set_session web3' account' connected' st1, out).
Proof.
  destruct (executeSwap_resume_cases reply st)
    as [(reason & Hr) | [(result & entries & -> & Hok & Hlog)
                        | (result & -> & Hok & Hlog)]].
  - rewrite !(executeSwap_resume_failure _ _ _ _ _ Hr); reflexivity.
  - unfold executeSwap_resume, try_finally, try_catch, handleSwapSuccess, bind.
    rewrite Hok, addXP_set_session.
    pose proof (addXP_normal st (xp_or_base (ExecResult.xp_earned result)))
      as Hn.
    pose proof (addXP_questLog st (xp_or_base (ExecResult.xp_earned result)))
      as Hq.
    destruct (addXP _ st) as [[r st1] out1]; cbn in Hn, Hq; subst r.
    cbn -[addToQuestLog firstn].
    rewrite !(addToQuestLog_array _ entries)
      by (destruct st1; cbn in *; congruence).
    destruct st1; reflexivity.
  - unfold executeSwap_resume, try_finally, try_catch, handleSwapSuccess, bind.
    rewrite Hok, addXP_set_session.
    pose proof (addXP_normal st (xp_or_base (ExecResult.xp_earned result)))
      as Hn.
    pose proof (addXP_questLog st (xp_or_base (ExecResult.xp_earned result)))
      as Hq.
    destruct (addXP _ st) as [[r st1] out1]; cbn in Hn, Hq; subst r.
    cbn -[addToQuestLog].
    rewrite !addToQuestLog_not_array by (destruct st1; cbn in *; congruence).
    destruct st1; reflexivity.
Qed.

Lemma executeSwap_resume_session formData reply now st :
  session_of (state_of (executeSwap_resume formData reply now st))
  = session_of st.
Proof.
  pose proof (executeSwap_resume_set_session formData reply now
                (web3 st) (account st) (isConnected st) st) as H.
  replace (set_session (web3 st) (account st) (isConnected st) st) with st
    in H by (destruct st; reflexivity).
  destruct (executeSwap_resume formData reply now st) as [[r st1] out1].
  injection H as H; rewrite H at 1; reflexivity.
Qed.

(** X4: as far as the state and the recorded effects go (notifications,
    level-up effect, success modal, saved values, loading indicator), a
    swap settles in the same way whatever has become of the session since
    it was submitted: with the session replaced (a disconnect, another
    account) it shows the same of these and leaves the same XP total,
    level and quest log, a success being awarded all the same; and it
    leaves the session fields as it finds them. The swap button, which
    [handleSwapSuccess] redraws from [isConnected], is not among the
    things recorded. *)
Theorem settlement_ignores_session formData reply now web3' account'
    connected' st :
  let r := executeSwap_resume formData reply now st in
  let r' := executeSwap_resume formData reply now
              (set_session web3' account' connected' st) in
  completion_of r' = completion_of r
  /\ effects_of r' = effects_of r
  /\ ledger_of (state_of r') = ledger_of (state_of r)
  /\ session_of (state_of r') = (web3', account', connected')
  /\ session_of (state_of r) = session_of st.
Proof.
  cbv zeta; rewrite executeSwap_resume_set_session.
  pose proof (executeSwap_resume_session formData reply now st) as Hs.
  destruct (executeSwap_resume formData reply now st) as [[r st1] out1].
  repeat split; exact Hs.
Qed.

Lemma loadSavedState_fields localStorage st :
  let r := loadSavedState localStorage st in
  currentXP (state_of r) =
    loaded_number (tokenQuest_xp localStorage) (currentXP st)
  /\ currentLevel (state_of r) =
       loaded_number (tokenQuest_level localStorage) (currentLevel st)
  /\ questLog (state_of r) =
       loaded_log (tokenQuest_questLog localStorage) (questLog st)
  /\ session_of (state_of r) = session_of st.
Proof.
  destruct localStorage as [xp lvl log], st as [w a c l x q].
  unfold loadSavedState, try_catch, bind; cbn -[parseInt].
  rewrite !if_saved_modify.
  destruct xp as [[| c1 t1] |], lvl as [[| c2 t2] |],
    log as [[[| c3 t3] [| v]] |]; cbn -[parseInt]; repeat split.
Qed.

Lemma step_session_consistent w e :
  session_consistent (app w) -> session_consistent (app (step toWei w e)).
Proof.
  intros Hw.
  destruct e as [formData | k reply now | accounts | chainId].
  - rewrite step_submit_app; exact Hw.
  - destruct (nth_error (pending w) k) as [formData |] eqn:Hk;
      [| unfold step; rewrite Hk; exact Hw].
    rewrite (step_settle _ _ _ _ _ _ Hk); cbn [app].
    pose proof (executeSwap_resume_session formData reply now (app w)) as Hs.
    unfold session_of in Hs; injection Hs as H1 H2 H3.
    unfold session_consistent; rewrite H1, H2, H3; exact Hw.
  - unfold step; destruct accounts as [| first rest];
      [rewrite handleAccountsChanged_empty
      | rewrite handleAccountsChanged_first];
      cbn; unfold session_consistent; cbn; intuition congruence.
  - unfold step; rewrite handleChainChanged_run; exact Hw.
Qed.

Lemma step_ledger w e :
  not_a_success e -> ledger_of (app (step toWei w e)) = ledger_of (app w).
Proof.
  intros He.
  destruct e as [formData | k reply now | accounts | chainId].
  - rewrite step_submit_app; reflexivity.
  - destruct (nth_error (pending w) k) as [formData |] eqn:Hk;
      [| unfold step; rewrite Hk; reflexivity].
    rewrite (step_settle _ _ _ _ _ _ Hk); cbn [app].
    assert (exists reason, failure_reason reply = Some reason)
      as (reason & Hr).
    { destruct reply as [message | result]; cbn in He |- *;
        [| rewrite He]; eexists; reflexivity. }
    rewrite (executeSwap_resume_failure _ _ _ _ _ Hr); reflexivity.
  - unfold step; destruct accounts as [| first rest];
      [rewrite handleAccountsChanged_empty
      | rewrite handleAccountsChanged_first]; reflexivity.
  - unfold step; rewrite handleChainChanged_run; reflexivity.
Qed.

Lemma step_level w e l :
  currentLevel (app w) = Num l ->
  exists l', currentLevel (app (step toWei w e)) = Num l' /\ l <= l'.
Proof.
  intros Hl.
  assert (Hsame : forall w', ledger_of (app w') = ledger_of (app w) ->
                    exists l', currentLevel (app w') = Num l' /\ l <= l').
  { intros w' Hw'; injection Hw' as _ Hlvl _.
    exists l; rewrite Hlvl; split; [exact Hl | lia]. }
  destruct e as [formData | k reply now | accounts | chainId];
    try (apply Hsame, step_ledger; exact I).
  destruct (nth_error (pending w) k) as [formData |] eqn:Hk;
    [| apply Hsame; unfold step; rewrite Hk; reflexivity].
  destruct (executeSwap_resume_cases reply (app w))
    as [(reason & Hr) | Hsuccess].
  { apply Hsame, step_ledger.
    destruct reply as [message | result]; cbn in Hr |- *; [exact I |].
    destruct (ExecResult.success result); [discriminate | reflexivity]. }
  rewrite (step_settle _ _ _ _ _ _ Hk); cbn [app].
  assert (Hlevel :
    currentLevel (state_of (executeSwap_resume formData reply now (app w)))
    = currentLevel
        (state_of (addXP (xp_or_base
                            (match reply with
                             | Response result => ExecResult.xp_earned result
                             | NetworkError _ => None
                             end)) (app w)))).
  { destruct Hsuccess as [(result & entries & -> & Hok & Hlog)
                         | (result & -> & Hok & Hlog)].
    - destruct (executeSwap_resume_success formData result now entries
                  (app w) Hok Hlog) as (_ & Hs & _).
      rewrite Hs; reflexivity.
    - destruct (executeSwap_resume_success_not_array formData result now
                  (app w) Hok Hlog) as (_ & Hs & _).
      rewrite Hs; reflexivity. }
  rewrite Hlevel, addXP_currentLevel, Hl; cbv zeta.
  destruct (level_of _) as [| n]; cbn; [exists l; split; [reflexivity | lia] |].
  destruct (Z.ltb_spec l n); eexists; split; try reflexivity; lia.
Qed.

(** X8: in a state whose session fields agree, a submission that passes
    the three checks never fails on a missing web3 handle: it issues the
    call exactly when the conversion accepts the amount, and the call then
    carries the connected account, the two tokens and the slippage of the
    form and the converted amount; when the conversion refuses the amount
    nothing is called and the refusal is shown. *)
Theorem checked_submission_calls formData st :
  session_consistent st ->
  isConnected st = true ->
  FormData.fromToken formData <> "" ->
  FormData.toToken formData <> "" ->
  FormData.amount formData <> "" ->
  FormData.fromToken formData <> FormData.toToken formData ->
  let r := handleSwapSubmission toWei formData st in
  match toWei (FormData.amount formData) with
  | Some wei =>
      exists address,
        account st = Some address
        /\ r = (Normal
                  (Some (SwapRequest.mk (Some address)
                           (FormData.fromToken formData)
                           (FormData.toToken formData) wei
                           (FormData.slippage formData))),
                st,
                [Loading true;
                 ExecuteSwapCall
                   (SwapRequest.mk (Some address)
                      (FormData.fromToken formData)
                      (FormData.toToken formData) wei
                      (FormData.slippage formData))])
  | None =>
      r = (Normal None, st,
           Loading true :: failed_output "invalid number value")
  end.
Proof.
  intros (Hweb3 & Hacc) Hc Hf Ht Ha Hd r; subst r.
  rewrite (handleSwapSubmission_passes toWei formData st Hc Hf Ht Ha Hd).
  rewrite executeSwap_begin_run, Hweb3, Hc.
  destruct (toWei (FormData.amount formData)) as [wei |]; [| reflexivity].
  destruct (account st) as [address |] eqn:Haddr.
  - exists address; split; reflexivity.
  - exfalso; apply (proj1 Hacc Hc); reflexivity.
Qed.

End AcrossEvents.

(** * Persistence round trip *)

Section RoundTrip.

Implicit Types (st : AppState) (d : Decimal.uint).

Ltac eval_digit :=
  match goal with
  | |- context [digit_of 10 ?c] =>
      let v := eval vm_compute in (digit_of 10 c) in
      change (digit_of 10 c) with v; cbv beta iota
  end.

Lemma of_lu_revapp_Z d d' :
  Z.of_N (DecimalPos.Unsigned.of_lu (Decimal.revapp d d')) =
  Z.of_N (DecimalPos.Unsigned.of_lu (Decimal.rev d))
  + Z.of_N (DecimalPos.Unsigned.of_lu d')
    * 10 ^ Z.of_N (DecimalPos.Unsigned.usize d).
Proof.
  rewrite DecimalPos.Unsigned.of_lu_revapp, N2Z.inj_add, N2Z.inj_mul,
    N2Z.inj_pow.
  reflexivity.
Qed.

Lemma read_digits_uint d a :
  read_digits 10 (NilEmpty.string_of_uint d) (Some a) =
  Some (a * 10 ^ Z.of_N (DecimalPos.Unsigned.usize d)
        + Z.of_N (DecimalPos.Unsigned.of_lu (Decimal.rev d))).
Proof.
  revert a; induction d; intros a; [cbn; f_equal; lia | ..];
    cbn [NilEmpty.string_of_uint read_digits]; eval_digit;
    rewrite IHd; f_equal;
    match goal with
    | |- context [Decimal.rev (?D d)] =>
        change (Decimal.rev (D d)) with (Decimal.revapp d (D Decimal.Nil))
    end;
    rewrite of_lu_revapp_Z;
    cbn [DecimalPos.Unsigned.usize DecimalPos.Unsigned.of_lu];
    rewrite N2Z.inj_succ, Z.pow_succ_r by apply N2Z.is_nonneg;
    rewrite ?N.mul_0_r, ?N.add_0_r; cbn [Z.of_N]; lia.
Qed.

Lemma read_digits_nonnil d :
  d <> Decimal.Nil ->
  read_digits 10 (NilEmpty.string_of_uint d) None =
  Some (Z.of_N (Pos.of_uint d)).
Proof.
  intros Hd; rewrite DecimalPos.Unsigned.of_uint_alt.
  destruct d; [contradiction | ..];
    cbn [NilEmpty.string_of_uint read_digits]; eval_digit;
    rewrite read_digits_uint; f_equal;
    match goal with
    | |- context [Decimal.rev (?D d)] =>
        change (Decimal.rev (D d)) with (Decimal.revapp d (D Decimal.Nil))
    end;
    rewrite of_lu_revapp_Z; cbn [DecimalPos.Unsigned.of_lu];
    rewrite ?N.mul_0_r, ?N.add_0_r; cbn [Z.of_N]; lia.
Qed.

Lemma parseInt_digits d :
  d <> Decimal.Nil ->
  parseInt (NilEmpty.string_of_uint d) = Num (Z.of_N (Pos.of_uint d))
  /\ parseInt (String "-" (NilEmpty.string_of_uint d))
     = Num (- Z.of_N (Pos.of_uint d)).
Proof.
  intros Hd.
  pose proof (read_digits_nonnil d Hd) as Hread.
  destruct d as [| d | d | d | d | d | d | d | d | d | d]; [contradiction | ..].
  1: destruct d.
  all: cbn [NilEmpty.string_of_uint] in Hread |- *.
  all: unfold parseInt; cbn [skip_spaces].
  all: repeat match goal with
         | |- context [is_space ?c] =>
             let v := eval vm_compute in (is_space c) in
             change (is_space c) with v; cbv beta iota
         end.
  all: rewrite Hread; split; f_equal; lia.
Qed.

Lemma string_of_uint_nonnil d :
  d <> Decimal.Nil -> NilZero.string_of_uint d = NilEmpty.string_of_uint d.
Proof. destruct d; [contradiction | reflexivity ..]. Qed.

Lemma parseInt_toString (n : jsnum) : parseInt (toString n) = n.
Proof.
  destruct n as [| z]; [reflexivity |].
  unfold toString, Z.to_int.
  destruct z as [| p | p]; [reflexivity | |];
    cbn [NilZero.string_of_int];
    rewrite string_of_uint_nonnil by apply DecimalPos.Unsigned.to_uint_nonnil;
    destruct (parseInt_digits _ (DecimalPos.Unsigned.to_uint_nonnil p))
      as (Hpos & Hneg);
    rewrite DecimalPos.Unsigned.of_to in Hpos, Hneg; assumption.
Qed.

Lemma toString_not_empty (n : jsnum) : toString n <> "".
Proof.
  destruct n as [| z]; [discriminate |].
  unfold toString, Z.to_int.
  destruct z as [| p | p]; cbn [NilZero.string_of_int]; try discriminate.
  rewrite string_of_uint_nonnil by apply DecimalPos.Unsigned.to_uint_nonnil.
  pose proof (DecimalPos.Unsigned.to_uint_nonnil p) as Hnn.
  destruct (Pos.to_uint p); [contradiction | discriminate ..].
Qed.

Lemma loaded_number_toString (n current : jsnum) :
  loaded_number (Some (toString n)) current = n.
Proof.
  pose proof (toString_not_empty n) as Hne.
  pose proof (parseInt_toString n) as Hparse.
  unfold loaded_number.
  destruct (toString n) as [| c rest]; [contradiction | exact Hparse].
Qed.

(** X9: what [saveState] writes, [loadSavedState] reads back: for a state
    whose XP total and level are [NaN] or integers that JavaScript holds
    exactly, loading the storage written for it gives the same XP total
    and the same level, whatever state the loading starts from; and when
    the saved quest-log text parses to the log that was saved, the whole
    ledger is the same. *)
Theorem saved_state_reloads st (logText : string * Parsed) (start : AppState) :
  safe_number (currentXP st) ->
  safe_number (currentLevel st) ->
  let r := loadSavedState (savedStorage st logText) start in
  currentXP (state_of r) = currentXP st
  /\ currentLevel (state_of r) = currentLevel st
  /\ (fst logText <> "" -> snd logText = Parses (questLog st) ->
      ledger_of (state_of r) = ledger_of st).
Proof.
  intros _ _ r; subst r.
  destruct (loadSavedState_fields (savedStorage st logText) start)
    as (Hxp & Hlevel & Hlog & _).
  cbn [savedStorage tokenQuest_xp tokenQuest_level tokenQuest_questLog]
    in Hxp, Hlevel, Hlog.
  rewrite loaded_number_toString in Hxp, Hlevel.
  repeat split; try assumption.
  intros Htext Hparse; unfold ledger_of; rewrite Hxp, Hlevel, Hlog.
  destruct logText as [[| c text] parse]; cbn in Htext, Hparse |- *;
    [contradiction | subst parse; reflexivity].
Qed.

End RoundTrip.

(** A ledger of 1234 XP at level 13 comes back from the storage written
    for it. *)
Lemma saved_state_reloads_witness :
  let st := ledger (Num 1234) (Num 13) (LogArray []) in
  let r := loadSavedState (savedStorage st ("[]", Parses (LogArray [])))
             initialState in
  tokenQuest_xp (savedStorage st ("[]", Parses (LogArray []))) = Some "1234"
  /\ ledger_of (state_of r) = ledger_of st.
Proof.
  cbv zeta; split; [reflexivity |].
  destruct (saved_state_reloads (ledger (Num 1234) (Num 13) (LogArray []))
              ("[]", Parses (LogArray [])) initialState)
    as (_ & _ & Hall).
  - vm_compute; reflexivity.
  - vm_compute; reflexivity.
  - apply Hall; [discriminate | reflexivity].
Defined.

(** * Token registry *)

Section Registry.

Implicit Types (entries : list (string * CONFIG.Token)) (address : string).

Lemma lower_ascii_idempotent (c : ascii) :
  lower_ascii (lower_ascii c) = lower_ascii c.
Proof.
  destruct c as [b0 b1 b2 b3 b4 b5 b6 b7].
  destruct b0, b1, b2, b3, b4, b5, b6, b7; reflexivity.
Qed.

Lemma toLowerCase_idempotent (text : string) :
  toLowerCase (toLowerCase text) = toLowerCase text.
Proof.
  induction text as [| c text IH]; [reflexivity |].
  cbn; rewrite lower_ascii_idempotent, IH; reflexivity.
Qed.

Lemma find_symbol_same_case entries address other :
  toLowerCase address = toLowerCase other ->
  find_symbol entries address = find_symbol entries other.
Proof.
  intros Heq; induction entries as [| [symbol token] entries IH];
    [reflexivity |].
  cbn; rewrite Heq, IH; reflexivity.
Qed.

Lemma find_symbol_sound entries address symbol :
  find_symbol entries address = Some symbol ->
  exists token,
    In (symbol, token) entries
    /\ toLowerCase (CONFIG.address token) = toLowerCase address.
Proof.
  induction entries as [| [s token] entries IH]; [discriminate |].
  cbn; destruct (String.eqb_spec (toLowerCase (CONFIG.address token))
                   (toLowerCase address)) as [Heq | Hne].
  - intros [= <-]; exists token; auto.
  - intros Hfind; destruct (IH Hfind) as (token' & Hin & Heq).
    exists token'; auto.
Qed.

Lemma find_symbol_none entries address :
  find_symbol entries address = None <->
  forall symbol token,
    In (symbol, token) entries ->
    toLowerCase (CONFIG.address token) <> toLowerCase address.
Proof.
  induction entries as [| [s token] entries IH].
  - split; [intros _ ? ? [] | reflexivity].
  - cbn; destruct (String.eqb_spec (toLowerCase (CONFIG.address token))
                     (toLowerCase address)) as [Heq | Hne].
    + split; [discriminate |].
      intros Hall; exfalso; apply (Hall s token); auto.
    + rewrite IH; split.
      * intros Hall symbol token' [[= <- <-] | Hin]; [exact Hne | eauto].
      * intros Hall symbol token' Hin; eauto.
Qed.

(** X10: the lookup of a token by its address does not depend on the
    letter case of the address; a symbol it returns is a key of the
    registry whose token has that address up to letter case; it returns
    [null] exactly when no token of the registry has that address up to
    letter case; and each token of the registry is found under its own
    address. *)
Theorem token_lookup_by_address address :
  getTokenSymbolByAddress (toLowerCase address)
    = getTokenSymbolByAddress address
  /\ (forall other, toLowerCase address = toLowerCase other ->
        getTokenSymbolByAddress address = getTokenSymbolByAddress other)
  /\ (forall symbol,
        getTokenSymbolByAddress address = Some symbol ->
        exists token,
          In (symbol, token) CONFIG.TOKENS
          /\ toLowerCase (CONFIG.address token) = toLowerCase address)
  /\ (getTokenSymbolByAddress address = None <->
      forall symbol token,
        In (symbol, token) CONFIG.TOKENS ->
        toLowerCase (CONFIG.address token) <> toLowerCase address)
  /\ (forall symbol token,
        In (symbol, token) CONFIG.TOKENS ->
        getTokenSymbolByAddress (CONFIG.address token) = Some symbol).
Proof.
  unfold getTokenSymbolByAddress; repeat split.
  - apply find_symbol_same_case, toLowerCase_idempotent.
  - intros other; apply find_symbol_same_case.
  - apply find_symbol_sound.
  - apply find_symbol_none.
  - apply find_symbol_none.
  - intros symbol token [[= <- <-] | [[= <- <-] | []]]; reflexivity.
Qed.

Lemma tokens_get_found address symbol :
  getTokenSymbolByAddress address = Some symbol ->
  exists token,
    tokens_get CONFIG.TOKENS (Some symbol) = Some token
    /\ CONFIG.symbol token = symbol.
Proof.
  intros Hfind.
  destruct (find_symbol_sound _ _ _ Hfind) as (token & Hin & _).
  destruct Hin as [[= <- <-] | [[= <- <-] | []]];
    eexists; split; reflexivity.
Qed.

(** X11: the token label beside the amount field is the symbol that the
    lookup by address finds, so the registry symbol of the selected
    address in whatever letter case it is written, and the placeholder
    [TOKEN] when the address is empty or not in the registry. *)
Theorem token_label address :
  updateTokenSymbols address =
    match getTokenSymbolByAddress address with
    | Some symbol => symbol
    | None => "TOKEN"
    end
  /\ updateTokenSymbols (toLowerCase address) = updateTokenSymbols address
  /\ updateTokenSymbols "" = "TOKEN".
Proof.
  assert (Hlabel : forall a,
            updateTokenSymbols a =
            match getTokenSymbolByAddress a with
            | Some symbol => symbol
            | None => "TOKEN"
            end).
  { intros a; unfold updateTokenSymbols.
    destruct (String.eqb_spec a "") as [-> | Hne]; [reflexivity |].
    unfold is_empty; rewrite (proj2 (String.eqb_neq a "") Hne).
    destruct (getTokenSymbolByAddress a) as [symbol |] eqn:Hfind;
      [| reflexivity].
    destruct (tokens_get_found a symbol Hfind) as (token & -> & Hsym).
    exact Hsym. }
  split; [apply Hlabel | split; [| reflexivity]].
  rewrite !Hlabel; unfold getTokenSymbolByAddress.
  rewrite (find_symbol_same_case _ (toLowerCase address) address)
    by apply toLowerCase_idempotent.
  reflexivity.
Qed.

End Registry.


(** * Display *)

Section Display.

Variable toWei : string -> option string.
Variable nonpositive : string -> bool.
Implicit Types (st : AppState) (formData : FormData.t).

(** X12: for an XP total and a level whose difference and products
    JavaScript holds exactly (below 2^53), the XP display shows the
    stored level and the XP total less 100 for each level below it. When
    the level is the one derived from the XP total, that is the XP total
    modulo 100, between 0 and 99; when the stored level is ahead of the
    XP total, it is negative. *)
Theorem xp_display_within_level st x l :
  currentXP st = Num x ->
  currentLevel st = Num l ->
  safe_number (Num x) ->
  safe_number (Num l) ->
  safe_number (Num ((l - 1) * 100)) ->
  safe_number (Num (x - (l - 1) * 100)) ->
  let shown := updateXPDisplay st in
  playerLevel shown = Num l
  /\ shownXP shown = Num (x - (l - 1) * 100)
  /\ (level_invariant st ->
      shownXP shown = Num (x mod 100) /\ 0 <= x mod 100 < 100)
  /\ (x / 100 + 1 < l -> x - (l - 1) * 100 < 0).
Proof.
  intros Hx Hl _ _ _ _ shown; subst shown.
  unfold updateXPDisplay, level_invariant; rewrite Hx, Hl; cbn.
  repeat split; try (apply Z.mod_pos_bound; lia).
  - injection H as ->; f_equal.
    pose proof (Z.div_mod x 100); lia.
  - intros Hahead.
    pose proof (Z.div_mod x 100); pose proof (Z.mod_pos_bound x 100); lia.
Qed.

(** X13: the swap button is the stricter gate: whenever
    [updateSwapButtonState] leaves the button enabled, the test
    [parseFloat(amount) <= 0] has failed (the amount reads as a positive
    number, or as no number at all) and [handleSwapSubmission] lets the
    same form through all its checks, going on to [executeSwap]; and a
    form that the handler rejects always has the button disabled. *)
Theorem enabled_button_passes_checks st formData :
  let button := updateSwapButtonState nonpositive st formData in
  let r := handleSwapSubmission toWei formData st in
  (fst button = false ->
   nonpositive (FormData.amount formData) = false
   /\ snd button = "Start Treasure Hunt!"
   /\ r = executeSwap_begin toWei formData st)
  /\ ((exists reason, r = (Normal None, st, [Notification reason "warning"]))
      -> fst button = true).
Proof.
  cbv zeta.
  unfold updateSwapButtonState, handleSwapSubmission, bind, get; cbn.
  destruct (isConnected st); cbn; [| split; [discriminate | reflexivity]].
  destruct (is_empty (FormData.fromToken formData)); cbn;
    [split; [discriminate | reflexivity] |].
  destruct (is_empty (FormData.toToken formData)); cbn;
    [split; [discriminate | reflexivity] |].
  destruct (String.eqb (FormData.fromToken formData)
              (FormData.toToken formData)); cbn.
  { destruct (is_empty (FormData.amount formData));
      split; try discriminate; reflexivity. }
  destruct (is_empty (FormData.amount formData)); cbn;
    [split; [discriminate | reflexivity] |].
  pose proof (executeSwap_begin_run toWei formData st) as Hrun.
  destruct (executeSwap_begin toWei formData st) as [[c st1] out1].
  destruct (nonpositive (FormData.amount formData)); cbn.
  - split; [discriminate | reflexivity].
  - split; [intros _; repeat split |].
    intros (reason & Hr).
    destruct (if web3 st then toWei (FormData.amount formData) else None);
      cbn in Hrun; rewrite Hrun in Hr; discriminate.
Qed.

End Display.

Lemma xp_display_within_level_witness :
  shownXP (updateXPDisplay (ledger (Num 105) (Num 2) (LogArray []))) = Num 5
  /\ shownXP (updateXPDisplay (ledger (Num 10) (Num 5) (LogArray [])))
     = Num (-390).
Proof.
  destruct (xp_display_within_level (ledger (Num 105) (Num 2) (LogArray []))
              105 2 eq_refl eq_refl eq_refl eq_refl eq_refl eq_refl)
    as (_ & _ & Hin & _).
  destruct (xp_display_within_level (ledger (Num 10) (Num 5) (LogArray []))
              10 5 eq_refl eq_refl eq_refl eq_refl eq_refl eq_refl)
    as (_ & Hshown & _).
  split; [apply Hin; reflexivity | exact Hshown].
Defined.

(** * Connecting the wallet *)

Section Connecting.

Implicit Types (st : AppState) (ethereum : Wallet) (address : string).

Lemma verifyNetwork_run ethereum st :
  verifyNetwork ethereum st =
  (Normal tt, st, [NetworkStatus (network_ok ethereum)]).
Proof.
  unfold verifyNetwork, switchToBSCTestnet, network_ok, updateNetworkStatus,
    emit.
  destruct (eth_chainId ethereum) as [code | chainId]; [reflexivity |].
  destruct (String.eqb chainId CONFIG.CHAIN_ID); cbn; [reflexivity |].
  destruct (wallet_switchEthereumChain ethereum) as [[code |] | u];
    try reflexivity.
  destruct (Z.eq_dec code 4902) as [-> | Hne].
  - destruct (wallet_addEthereumChain ethereum); reflexivity.
  - destruct code as [| p | p]; try reflexivity.
    repeat (destruct p as [p | p |]; try reflexivity).
    contradiction.
Qed.

Lemma connectWallet_run address ethereum st :
  connectWallet address ethereum st =
  (Normal tt, set_session true (Some address) true st,
   [NetworkStatus (network_ok ethereum);
    Notification "🎉 Wallet connected! Ready to start your treasure hunt!"
      "success"]).
Proof.
  unfold connectWallet, connectWallet_begin, connectWallet_resume, bind,
    try_catch, modify.
  rewrite verifyNetwork_run; reflexivity.
Qed.

(** X14: verifying the network never throws and never touches the state,
    so it never undoes a connection; it shows the network status exactly
    once, as correct exactly when the wallet is on the required chain, or
    accepts to switch to it, or refuses the switch with code 4902 and
    accepts to add the chain. *)
Theorem verifyNetwork_outcome ethereum st :
  let r := verifyNetwork ethereum st in
  completion_of r = Normal tt
  /\ state_of r = st
  /\ effects_of r = [NetworkStatus (network_ok ethereum)]
  /\ (network_ok ethereum = true <->
      (exists chainId,
         eth_chainId ethereum = Answered chainId
         /\ (chainId = CONFIG.CHAIN_ID
             \/ (exists u, wallet_switchEthereumChain ethereum = Answered u)
             \/ (wallet_switchEthereumChain ethereum = Refused (Some 4902)
                 /\ exists u, wallet_addEthereumChain ethereum = Answered u)))).
Proof.
  cbv zeta; rewrite verifyNetwork_run; repeat split.
  - unfold network_ok.
    destruct (eth_chainId ethereum) as [code | chainId]; [discriminate |].
    intros Hok; exists chainId; split; [reflexivity |].
    apply orb_true_iff in Hok; destruct Hok as [Hok | Hok];
      [left; apply String.eqb_eq, Hok | right].
    destruct (wallet_switchEthereumChain ethereum) as [[code |] | u];
      [| discriminate | left; eexists; reflexivity].
    destruct (Z.eq_dec code 4902) as [-> | Hne].
    + right; split; [reflexivity |].
      destruct (wallet_addEthereumChain ethereum) as [c | u];
        [discriminate | eexists; reflexivity].
    + exfalso; destruct code as [| p | p]; try discriminate.
      repeat (destruct p as [p | p |]; try discriminate).
      contradiction.
  - intros (chainId & Hchain & Hcase); unfold network_ok; rewrite Hchain.
    destruct Hcase as [-> | [(u & ->) | (-> & u & ->)]];
      [rewrite String.eqb_refl | rewrite orb_true_r ..]; reflexivity.
Qed.

(** X15: once the wallet has answered the request for accounts, the
    session is connected exactly when the answer holds at least one
    account, and then with the first one, whether or not the network
    turns out to be the required one: the success notification follows
    the network status in either case. A refusal shows the failure
    notification and an empty answer shows nothing, both leaving the
    state as it was. The XP total, the level and the quest log are never
    touched. *)
Theorem requestWalletConnection_outcome ethereum st :
  let r := requestWalletConnection ethereum st in
  completion_of r = Normal tt
  /\ ledger_of (state_of r) = ledger_of st
  /\ match eth_requestAccounts ethereum with
     | Answered (first :: _) =>
         session_of (state_of r) = (true, Some first, true)
         /\ effects_of r =
              [NetworkStatus (network_ok ethereum);
               Notification
                 "🎉 Wallet connected! Ready to start your treasure hunt!"
                 "success"]
     | Answered [] => state_of r = st /\ effects_of r = []
     | Refused _ =>
         state_of r = st
         /\ effects_of r =
              [Notification "Failed to connect wallet. Please try again."
                 "error"]
     end.
Proof.
  cbv zeta; unfold requestWalletConnection.
  destruct (eth_requestAccounts ethereum) as [code | [| first rest]];
    try (repeat split; reflexivity).
  rewrite connectWallet_run; repeat split.
Qed.

(** X16: at page load a wallet that is absent, refuses, or reports no
    account changes nothing and shows nothing; one that reports accounts
    connects the first of them. After it the session fields agree
    whenever they did before. *)
Theorem checkWalletConnection_outcome (provider : option Wallet) st :
  let r := checkWalletConnection provider st in
  completion_of r = Normal tt
  /\ ledger_of (state_of r) = ledger_of st
  /\ (session_consistent st -> session_consistent (state_of r))
  /\ match provider with
     | Some ethereum =>
         match eth_accounts ethereum with
         | Answered (first :: _) =>
             session_of (state_of r) = (true, Some first, true)
         | _ => state_of r = st /\ effects_of r = []
         end
     | None => state_of r = st /\ effects_of r = []
     end.
Proof.
  assert (Hnothing : forall r : Completion unit * AppState * list Effect,
            r = (Normal tt, st, []) ->
            completion_of r = Normal tt
            /\ ledger_of (state_of r) = ledger_of st
            /\ (session_consistent st -> session_consistent (state_of r))
            /\ state_of r = st /\ effects_of r = [])
    by (intros r ->; cbn; tauto).
  cbv zeta; unfold checkWalletConnection.
  destruct provider as [ethereum |]; [| apply Hnothing; reflexivity].
  destruct (eth_accounts ethereum) as [code | [| first rest]];
    try (apply Hnothing; reflexivity).
  rewrite connectWallet_run; repeat split; cbn; try discriminate; auto.
Qed.

(** X17: a click on the connect button while connected disconnects: the
    session is cleared, the disconnection is notified, and the ledger
    stays. A click while disconnected changes nothing by itself: it asks
    the wallet for accounts, or shows the alert when the page has no
    wallet. Connecting and then clicking leaves the session as it is at
    the start of the page, whatever the wallet answered about the
    network. *)
Theorem handleWalletConnection_toggles (hasEthereum : bool) st :
  let r := handleWalletConnection hasEthereum st in
  ledger_of (state_of r) = ledger_of st
  /\ (isConnected st = true ->
      completion_of r = Normal Disconnected
      /\ session_of (state_of r) = (false, None, false)
      /\ effects_of r = [Notification "Wallet disconnected" "info"])
  /\ (isConnected st = false ->
      state_of r = st /\ effects_of r = []
      /\ (hasEthereum = true -> completion_of r = Normal AccountsRequested)
      /\ (hasEthereum = false ->
          exists message, completion_of r = Normal (Alerted message)))
  /\ (forall address ethereum,
        session_of
          (state_of (handleWalletConnection hasEthereum
                       (state_of (connectWallet address ethereum st))))
        = session_of initialState).
Proof.
  cbv zeta.
  assert (Hrun :
    handleWalletConnection hasEthereum st =
    if isConnected st
    then (Normal Disconnected, set_session false None false st,
          [Notification "Wallet disconnected" "info"])
    else (Normal (if hasEthereum then AccountsRequested
                  else Alerted
                         "🥺 MetaMask is required to play Token Quest! Please install MetaMask to continue your adventure."),
          st, [])).
  { unfold handleWalletConnection, bind, get; cbn.
    destruct (isConnected st); [| destruct hasEthereum]; reflexivity. }
  split; [| split; [| split]].
  - rewrite Hrun; destruct (isConnected st); reflexivity.
  - intros Hc; rewrite Hrun, Hc; repeat split.
  - intros Hc; rewrite Hrun, Hc; repeat split; intros ->;
      [reflexivity | eexists; reflexivity].
  - intros address ethereum; rewrite connectWallet_run.
    unfold handleWalletConnection, bind, get; cbn; reflexivity.
Qed.

End Connecting.

(** * Quotes *)

Section QuoteFacts.

Variable toWei : string -> option string.
Variable fromWei : string -> option string.
Variable toFixed6 : string -> string.
Implicit Types (st : AppState) (formData : FormData.t).

Lemma quotable_guard formData :
  is_empty (FormData.amount formData)
  || is_empty (FormData.fromToken formData)
  || is_empty (FormData.toToken formData)
  || String.eqb (FormData.fromToken formData) (FormData.toToken formData)
  = negb (quotable formData).
Proof.
  unfold quotable.
  destruct (is_empty (FormData.amount formData)),
    (is_empty (FormData.fromToken formData)),
    (is_empty (FormData.toToken formData)),
    (String.eqb (FormData.fromToken formData) (FormData.toToken formData));
    reflexivity.
Qed.

(** X18: what one call of [handleAmountChange] does, given the form it
    is called with. When a field is empty or the two tokens are equal it
    resets the expected output to the placeholder; otherwise
    [calculateExpectedOutput] is entered past its own guard, and either
    posts one quote request with the two tokens of the form and the
    converted amount (the wallet being connected and the conversion
    accepting the amount), writing nothing until that request settles,
    or writes that the quote is unavailable. A change of token with an
    incomplete form, on the contrary, leaves the expected output and the
    price impact alone and asks nothing. *)
Theorem amount_change_outcome st formData :
  let r := handleAmountChange toWei st formData in
  match snd r with
  | Some body =>
      fst r = [QuoteCall body]
      /\ quotable formData = true
      /\ web3 st = true
      /\ toWei (FormData.amount formData) = Some (QuoteRequest.amountIn body)
      /\ QuoteRequest.tokenIn body = FormData.fromToken formData
      /\ QuoteRequest.tokenOut body = FormData.toToken formData
  | None =>
      (quotable formData = false /\ fst r = [ExpectedOutput "-- TOKEN"])
      \/ (quotable formData = true
          /\ fst r = [ExpectedOutput "Quote unavailable"]
          /\ (web3 st = false \/ toWei (FormData.amount formData) = None))
  end
  /\ (quotable formData = false ->
      handleTokenSelection toWei st formData = ([], None)).
Proof.
  cbv zeta; unfold handleAmountChange, handleTokenSelection,
    calculateExpectedOutput_begin.
  rewrite quotable_guard.
  destruct (quotable formData); cbn [negb].
  - split; [| discriminate].
    destruct (web3 st); [| right; auto].
    destruct (toWei (FormData.amount formData)) as [wei |] eqn:Hwei; cbn.
    + repeat split.
    + right; auto.
  - split; [left; auto | reflexivity].
Qed.

(** X19: when a quote request settles, the expected output is written
    exactly once. It shows an amount, followed by the registry symbol of
    the target token or by [TOKEN], and the price impact with it, only
    when the service reports success, the wallet is still connected and
    the returned amount converts; it says that the quote failed when the
    service reports no success, and that the quote is unavailable in
    every other case. The price impact is never written without an
    amount. *)
Theorem quote_settlement st formData reply :
  let out := calculateExpectedOutput_resume fromWei toFixed6 st formData reply in
  List.length (filter is_output out) = 1%nat
  /\ match reply with
     | QuoteError _ => out = [ExpectedOutput "Quote unavailable"]
     | QuoteResponse result =>
         if QuoteResult.success result
         then
           match QuoteResult.amount_out result with
           | Some amount_out =>
               match (if web3 st then fromWei amount_out else None) with
               | Some outputAmount =>
                   out =
                   [ExpectedOutput
                      (toFixed6 outputAmount ++ " "
                       ++ updateTokenSymbols (FormData.toToken formData))%string;
                    PriceImpact
                      ("~" ++ QuoteResult.price_impact result ++ "%")%string]
               | None => out = [ExpectedOutput "Quote unavailable"]
               end
           | None => out = [ExpectedOutput "Quote unavailable"]
           end
         else out = [ExpectedOutput "Quote failed"]
     end.
Proof.
  cbv zeta; unfold calculateExpectedOutput_resume.
  destruct reply as [message | result]; [split; reflexivity |].
  destruct (QuoteResult.success result); [| split; reflexivity].
  destruct (QuoteResult.amount_out result) as [amount_out |];
    [| destruct (web3 st); split; reflexivity].
  destruct (web3 st); [| split; reflexivity].
  destruct (fromWei amount_out) as [outputAmount |]; [| split; reflexivity].
  split; [reflexivity |].
  do 3 f_equal.
  destruct (String.eqb_spec (FormData.toToken formData) "") as [-> | Hne];
    [reflexivity |].
  unfold updateTokenSymbols, is_empty at 2.
  rewrite (proj2 (String.eqb_neq _ _) Hne).
  destruct (getTokenSymbolByAddress (FormData.toToken formData))
    as [symbol |] eqn:Hfind; [| reflexivity].
  destruct (tokens_get_found _ _ Hfind) as (token & -> & Hsym).
  destruct (find_symbol_sound _ _ _ Hfind) as (token' & Hin & _).
  rewrite Hsym.
  destruct Hin as [[= <- _] | [[= <- _] | []]]; reflexivity.
Qed.

End QuoteFacts.

(** * The label of the connect button *)

Section WalletLabel.

Implicit Types (st : AppState) (s t : string).

Lemma length_append s t :
  String.length (s ++ t)%string = (String.length s + String.length t)%nat.
Proof. induction s as [| c s IH]; cbn; [reflexivity | rewrite IH; reflexivity]. Qed.

Lemma substring_length s : forall n m,
  String.length (substring n m s) = Nat.min m (String.length s - n).
Proof.
  induction s as [| c s IH]; intros [| n] [| m]; cbn; try reflexivity.
  - rewrite IH, Nat.sub_0_r; reflexivity.
  - apply IH.
  - apply IH.
Qed.

Lemma substring_prefix_split s : forall a b,
  substring 0 (a + b) s = (substring 0 a s ++ substring a b s)%string.
Proof.
  induction s as [| c s IH]; intros [| a] b; cbn.
  - destruct b; reflexivity.
  - destruct b; reflexivity.
  - destruct b; reflexivity.
  - rewrite IH; reflexivity.
Qed.

Lemma substring_suffix_split s : forall k,
  s = (substring 0 k s ++ substring k (String.length s - k) s)%string.
Proof.
  induction s as [| c s IH]; intros [| k]; cbn; try reflexivity.
  - f_equal; rewrite (IH 0%nat) at 1.
    destruct s; cbn; rewrite ?Nat.sub_0_r; reflexivity.
  - f_equal; apply IH.
Qed.

(** X20: the connect button shows an address only while the session is
    connected with a non-empty account, and [Connect Wallet] otherwise,
    in particular after a disconnection. For an account of at least ten
    characters the label has 13 characters, the first six and the last
    four of the account around three dots, so nothing of the middle of
    the account is shown. *)
Theorem wallet_button_label st :
  (isConnected st = false \/ account st = None \/ account st = Some "" ->
   updateWalletUI st = "Connect Wallet")
  /\ updateWalletUI (state_of (disconnectWallet st)) = "Connect Wallet"
  /\ (forall address,
        isConnected st = true ->
        account st = Some address ->
        (10 <= String.length address)%nat ->
        String.length (updateWalletUI st) = 13%nat
        /\ updateWalletUI st
           = (slice_first6 address ++ "..." ++ slice_last4 address)%string
        /\ exists middle,
             address
             = (slice_first6 address ++ middle ++ slice_last4 address)%string).
Proof.
  split; [| split].
  - unfold updateWalletUI; intros [-> | [-> | ->]]; [reflexivity | | ];
      destruct (isConnected st); reflexivity.
  - reflexivity.
  - intros address Hc Ha Hlen.
    assert (Hlabel : updateWalletUI st
                     = (slice_first6 address ++ "..."
                        ++ slice_last4 address)%string).
    { unfold updateWalletUI; rewrite Hc, Ha.
      destruct address as [| c rest]; [cbn in Hlen; lia | reflexivity]. }
    split; [| split; [exact Hlabel |]].
    + rewrite Hlabel, !length_append; unfold slice_first6, slice_last4.
      rewrite !substring_length; cbn [String.length]; lia.
    + exists (substring 6 (String.length address - 10) address).
      unfold slice_first6, slice_last4.
      rewrite (substring_suffix_split address (String.length address - 4))
        at 1.
      replace (String.length address - 4)%nat
        with (6 + (String.length address - 10))%nat at 1 by lia.
      rewrite substring_prefix_split.
      replace (String.length address - (String.length address - 4))%nat
        with 4%nat by lia.
      generalize (substring 0 6 address) as a,
        (substring 6 (String.length address - 10) address) as b,
        (substring (String.length address - 4) 4 address) as c.
      intros a b c; induction a as [| x a IH]; cbn; [| rewrite IH];
        reflexivity.
Qed.

End WalletLabel.

(** * The ledger and the session over the life of the page *)

Section PageInvariants.

Variable toWei : string -> option string.
Implicit Types (st : AppState) (w : World).

(** Each wallet handler leaves the ledger alone and ends with one of
    three sessions: the one it found, a connected one, the cleared one. *)
Lemma wallet_handlers_state (e : PageEvent) w :
  (forall core, e <> Core core) ->
  ledger_of (app (page_step toWei w e)) = ledger_of (app w)
  /\ (session_of (app (page_step toWei w e)) = session_of (app w)
      \/ (exists address,
            session_of (app (page_step toWei w e))
            = (true, Some address, true))
      \/ session_of (app (page_step toWei w e)) = (false, None, false)).
Proof.
  intros Hwallet.
  destruct e as [core | hasEthereum | ethereum | provider];
    [exfalso; apply (Hwallet core); reflexivity | ..]; unfold page_step.
  - unfold handleWalletConnection, bind, get; cbn.
    destruct (isConnected (app w)); [| destruct hasEthereum]; cbn; auto.
  - unfold requestWalletConnection.
    destruct (eth_requestAccounts ethereum) as [code | [| first rest]];
      [cbn; auto | cbn; auto |].
    rewrite connectWallet_run; cbn.
    split; [reflexivity | right; left; exists first; reflexivity].
  - unfold checkWalletConnection.
    destruct provider as [ethereum |]; [| cbn; auto].
    destruct (eth_accounts ethereum) as [code | [| first rest]];
      [cbn; auto | cbn; auto |].
    rewrite connectWallet_run; cbn.
    split; [reflexivity | right; left; exists first; reflexivity].
Qed.

Lemma page_step_session_consistent w e :
  session_consistent (app w) ->
  session_consistent (app (page_step toWei w e)).
Proof.
  intros Hw.
  destruct e as [core | hasEthereum | ethereum | provider];
    [apply step_session_consistent, Hw | ..].
  all: match goal with
       | |- session_consistent (app (page_step _ ?w0 ?e)) =>
           destruct (wallet_handlers_state e w0) as (_ & Hcase);
             [discriminate |];
             set (st' := app (page_step toWei w0 e)) in *
       end.
  all: unfold session_consistent, session_of in *.
  all: destruct Hcase as [Hs | [(address & Hs) | Hs]];
    injection Hs as H1 H2 H3; rewrite H1, H2, H3;
    [exact Hw | | ]; cbn; intuition congruence.
Qed.

(** X5: at every moment of the page's life the session fields agree:
    whatever was saved in localStorage and whatever the page has handled
    since (submissions, settlements, account and chain changes, clicks on
    the connect button, answers of the wallet), the web3 handle is set
    exactly when [isConnected] is, and the account is present exactly
    when [isConnected] is. *)
Theorem session_always_consistent localStorage events :
  session_consistent (app (page_run toWei (startup localStorage) events)).
Proof.
  assert (Hstart : session_consistent (app (startup localStorage))).
  { destruct (loadSavedState_fields localStorage initialState)
      as (_ & _ & _ & Hs).
    unfold startup.
    destruct (loadSavedState localStorage initialState) as [[r st] out].
    cbn in Hs |- *; unfold session_of in Hs; injection Hs as Hw Ha Hc.
    unfold session_consistent.
    rewrite Hw, Ha, Hc; cbn; intuition congruence. }
  revert Hstart; generalize (startup localStorage) as w.
  induction events as [| e events IH]; intros w Hw; [exact Hw |].
  apply IH, page_step_session_consistent, Hw.
Qed.

Lemma page_step_ledger w e :
  page_not_a_success e ->
  ledger_of (app (page_step toWei w e)) = ledger_of (app w).
Proof.
  intros He.
  destruct e as [core | hasEthereum | ethereum | provider];
    [apply step_ledger, He | ..].
  all: match goal with
       | |- ledger_of (app (page_step _ ?w0 ?e)) = _ =>
           apply (wallet_handlers_state e w0); discriminate
       end.
Qed.

(** X6: only the settlement of a swap with [success] true changes the
    ledger: submissions, failed settlements, account changes (a
    disconnect or a switch to another account included), chain changes,
    clicks on the connect button and the wallet's answers leave the XP
    total, the level and the quest log as they are; the ledger belongs to
    the browser, not to the account. *)
Theorem ledger_changes_only_on_success w events :
  Forall page_not_a_success events ->
  ledger_of (app (page_run toWei w events)) = ledger_of (app w).
Proof.
  intros Hall; revert w.
  induction Hall as [| e events He _ IH]; intros w; [reflexivity |].
  cbn [page_run fold_left]; fold (page_run toWei (page_step toWei w e) events).
  rewrite IH; apply page_step_ledger, He.
Qed.

Lemma page_step_level w e l :
  currentLevel (app w) = Num l ->
  exists l', currentLevel (app (page_step toWei w e)) = Num l' /\ l <= l'.
Proof.
  intros Hl.
  destruct e as [core | hasEthereum | ethereum | provider];
    [apply step_level, Hl | ..].
  all: match goal with
       | |- exists _, currentLevel (app (page_step _ ?w0 ?e)) = _ /\ _ =>
           destruct (wallet_handlers_state e w0) as (Hledger & _);
             [discriminate |];
             set (st' := app (page_step toWei w0 e)) in *
       end.
  all: injection Hledger as _ Hlevel _.
  all: exists l; rewrite Hlevel; split; [exact Hl | lia].
Qed.

(** X7: a level, once reached, is never lost: from a state whose level is
    a number, the level after any sequence of page events is a number
    that is at least as large. *)
Theorem level_never_drops w events l :
  currentLevel (app w) = Num l ->
  exists l',
    currentLevel (app (page_run toWei w events)) = Num l' /\ l <= l'.
Proof.
  revert w l; induction events as [| e events IH]; intros w l Hl.
  - exists l; split; [exact Hl | lia].
  - destruct (page_step_level w e l Hl) as (l1 & Hl1 & Hle1).
    destruct (IH _ _ Hl1) as (l2 & Hl2 & Hle2).
    exists l2; split; [exact Hl2 | lia].
Qed.

End PageInvariants.

(** * Instances of the further properties *)

(** A submission, a click that disconnects, a connection with another
    account, a chain change and a failed call leave the ledger of
    [connectedState] as it is, while the account has changed. *)
Lemma ledger_changes_only_on_success_witness :
  let events :=
    [Core (SwapSubmit (wbnb_to_busd "1"));
     ConnectClick true;
     AccountsAnswered stubbornWallet;
     Core (ChainChanged "0x1");
     Core (SwapSettles 0 (NetworkError "offline") "t")] in
  let w := page_run toWei_ether (mkWorld connectedState [] []) events in
  ledger_of (app w) = (Num 0, Num 1, LogArray [])
  /\ account (app w) = Some "0x2222222222222222222222222222222222222222".
Proof.
  cbv zeta; split; [| reflexivity].
  apply (ledger_changes_only_on_success toWei_ether
           (mkWorld connectedState [] [])).
  repeat constructor.
Defined.

(** After a swap that grants 250 XP and a disconnection, the level is a
    number that is at least the level 1 it started from. *)
Lemma level_never_drops_witness :
  exists level,
    currentLevel
      (app (page_run toWei_ether
              (mkWorld connectedState [wbnb_to_busd "1"] [])
              [Core (SwapSettles 0 (Response (answer (Some 250))) "t");
               ConnectClick true]))
    = Num level
    /\ 1 <= level.
Proof.
  apply (level_never_drops toWei_ether
           (mkWorld connectedState [wbnb_to_busd "1"] [])).
  reflexivity.
Defined.

(** From the connected example state, the form with amount ["1.5"] posts
    the account and [1500000000000000000]. *)
Lemma checked_submission_calls_witness :
  completion_of
    (handleSwapSubmission toWei_ether (wbnb_to_busd "1.5") connectedState)
  = Normal
      (Some (SwapRequest.mk
               (Some "0x1111111111111111111111111111111111111111")
               "0xae13d989daC2f0dEbFf460aC112a837C89BAa7cd"
               "0x78867BbEeF44f2326bF8DDd1941a4439382EF2A7"
               "1500000000000000000" "0.5")).
Proof.
  assert (Hconsistent : session_consistent connectedState)
    by (split; [reflexivity | split; [discriminate | reflexivity]]).
  pose proof (checked_submission_calls toWei_ether (wbnb_to_busd "1.5")
                connectedState Hconsistent eq_refl) as Hcall.
  cbn -[handleSwapSubmission] in Hcall.
  destruct Hcall as (address & Haddress & Hrun); try discriminate.
  rewrite Hrun; injection Haddress as <-; reflexivity.
Defined.

(** The label for the account of the connected example state. *)
Lemma wallet_button_label_witness :
  updateWalletUI connectedState = "0x1111...1111"
  /\ String.length (updateWalletUI connectedState) = 13%nat.
Proof.
  destruct (wallet_button_label connectedState) as (_ & _ & Hlabel).
  destruct (Hlabel "0x1111111111111111111111111111111111111111"
              eq_refl eq_refl) as (Hlength & Htext & _).
  - cbn; lia.
  - split; [rewrite Htext; reflexivity | exact Hlength].
Defined.

(** A click while connected clears the session; connecting to a wallet
    that stays on the wrong chain still connects and still announces
    success. *)
Lemma handleWalletConnection_toggles_witness :
  session_of (state_of (handleWalletConnection true connectedState))
  = (false, None, false)
  /\ effects_of (requestWalletConnection stubbornWallet initialState)
     = [NetworkStatus false;
        Notification "🎉 Wallet connected! Ready to start your treasure hunt!"
          "success"].
Proof.
  destruct (handleWalletConnection_toggles true connectedState)
    as (_ & Hconnected & _).
  destruct (Hconnected eq_refl) as (_ & Hsession & _).
  split; [exact Hsession | reflexivity].
Defined.
